(** * doordash_scraper.py: a shallow embedding and its verified properties

    The scraper walks a paginated GraphQL endpoint (memoising every page on
    disk), flattens the nested order / sub-order / item / extra / option
    records into rows, and writes an itemised table and a per-order pivot.

    The embedding keeps the dynamic typing of the Python source: a decoded
    response is a [json] value, every subscript, [.get], [in], iteration and
    slice is a function that raises the exception Python raises, and the
    generator [fetch_all_orders] is run with an explicit page budget and an
    event trace. *)

From Stdlib Require Import ZArith String Ascii List Bool Lia.
From Stdlib Require Import DecimalString DecimalNat Permutation Sorted.
From stdpp Require Import base strings gmap.
Import ListNotations.

Local Open Scope string_scope.
Local Open Scope list_scope.
#[local] Set Warnings "-register-all".

(** ** Decoded JSON values

    What [json.loads] returns.  An object keeps its keys in document order
    (a Python dict is insertion ordered); a decoded object holds each key
    once and [assoc] reads the first binding.  Numbers are the integers;
    a character is a code point below 256. *)

Inductive json : Type :=
| JNull
| JBool (b : bool)
| JInt (n : Z)
| JStr (s : string)
| JArr (items : list json)
| JObj (fields : list (string * json)).

Fixpoint assoc {V : Type} (k : string) (o : list (string * V)) : option V :=
  match o with
  | [] => None
  | (k', v) :: o' => if String.eqb k k' then Some v else assoc k o'
  end.

(** ** Exceptions and the error monad *)

Inductive exn : Type :=
| KeyError (key : json)
| IndexError
| TypeError
| AttributeError
| RuntimeError (msg : string)
| OSError                      (* PermissionError, IsADirectoryError, ... *)
| TransportError (msg : string).

Inductive result (A : Type) : Type :=
| Ok (a : A)
| Raise (e : exn).
Arguments Ok {A} a.
Arguments Raise {A} e.

Definition bind {A B : Type} (c : result A) (k : A -> result B) : result B :=
  match c with
  | Ok a => k a
  | Raise e => Raise e
  end.

Notation "'do' x <- c ; k" := (bind c (fun x => k))
  (at level 10, x name, c at level 100, k at level 200).

(** [for x in xs: body], the body threading an accumulator. *)
Fixpoint for_each {A S : Type} (body : S -> A -> result S) (xs : list A) (s : S)
  : result S :=
  match xs with
  | [] => Ok s
  | x :: xs' => do s' <- body s x; for_each body xs' s'
  end.

(** ** Python's operations on decoded values *)

Module Py.

(** [bool(x)] *)
Definition truthy (j : json) : bool :=
  match j with
  | JNull => false
  | JBool b => b
  | JInt n => negb (Z.eqb n 0)
  | JStr s => negb (String.eqb s "")
  | JArr l => match l with [] => false | _ => true end
  | JObj o => match o with [] => false | _ => true end
  end.

(** [a or b] *)
Definition or_ (a b : json) : json := if truthy a then a else b.

(** [x[k]] for a string [k] *)
Definition getitem (j : json) (k : string) : result json :=
  match j with
  | JObj o => match assoc k o with
              | Some v => Ok v
              | None => Raise (KeyError (JStr k))
              end
  | _ => Raise TypeError
  end.

(** [x[i]] for a non-negative integer [i] *)
Definition getindex (j : json) (i : nat) : result json :=
  match j with
  | JArr l => match nth_error l i with
              | Some v => Ok v
              | None => Raise IndexError
              end
  | JStr s => match String.get i s with
              | Some c => Ok (JStr (String c ""))
              | None => Raise IndexError
              end
  | JObj _ => Raise (KeyError (JInt (Z.of_nat i)))
  | _ => Raise TypeError
  end.

(** [x.get(k, default)]; only a dict has the method *)
Definition get (j : json) (k : string) (default : json) : result json :=
  match j with
  | JObj o => Ok (match assoc k o with Some v => v | None => default end)
  | _ => Raise AttributeError
  end.

(** [needle in s] on strings *)
Fixpoint substring_of (needle s : string) : bool :=
  String.prefix needle s
  || match s with
     | EmptyString => false
     | String _ s' => substring_of needle s'
     end.

(** [k in x] for a string [k]: a key of a dict, an element of a list, a
    substring of a string *)
Definition contains (k : string) (j : json) : result bool :=
  match j with
  | JObj o => Ok (match assoc k o with Some _ => true | None => false end)
  | JArr l => Ok (existsb (fun x => match x with
                                    | JStr s => String.eqb k s
                                    | _ => false
                                    end) l)
  | JStr s => Ok (substring_of k s)
  | _ => Raise TypeError
  end.

Fixpoint chars (s : string) : list json :=
  match s with
  | EmptyString => []
  | String c s' => JStr (String c "") :: chars s'
  end.

(** [for x in j] *)
Definition iter (j : json) : result (list json) :=
  match j with
  | JArr l => Ok l
  | JObj o => Ok (map (fun kv => JStr (fst kv)) o)
  | JStr s => Ok (chars s)
  | _ => Raise TypeError
  end.

(** [x[:10]]; a dict refuses the slice as a key ([TypeError]; from Python
    3.12 on, [KeyError]) *)
Definition slice10 (j : json) : result json :=
  match j with
  | JStr s => Ok (JStr (String.substring 0 10 s))
  | JArr l => Ok (JArr (firstn 10 l))
  | _ => Raise TypeError
  end.

(** [str.isspace] on one character *)
Definition is_space (c : ascii) : bool :=
  let n := nat_of_ascii c in
  (((9 <=? n) && (n <=? 13)) || ((28 <=? n) && (n <=? 32))
   || (n =? 133) || (n =? 160))%nat.

Fixpoint lstrip (s : string) : string :=
  match s with
  | EmptyString => EmptyString
  | String c s' => if is_space c then lstrip s' else s
  end.

Fixpoint rstrip (s : string) : string :=
  match s with
  | EmptyString => EmptyString
  | String c s' =>
      match rstrip s' with
      | EmptyString => if is_space c then EmptyString else String c EmptyString
      | r => String c r
      end
  end.

(** [s.strip()] *)
Definition strip (s : string) : string := rstrip (lstrip s).

(** [sep.join(parts)] *)
Definition join (sep : string) (parts : list string) : string :=
  String.concat sep parts.

Definition squote : ascii := ascii_of_nat 39.
Definition dquote : ascii := ascii_of_nat 34.
Definition backslash : ascii := ascii_of_nat 92.

Fixpoint has_char (c : ascii) (s : string) : bool :=
  match s with
  | EmptyString => false
  | String c' s' => Ascii.eqb c c' || has_char c s'
  end.

Definition hex_digit (n : nat) : ascii :=
  match String.get n "0123456789abcdef" with
  | Some c => c
  | None => "0"%char
  end.

Definition escape_char (quote c : ascii) : string :=
  let n := nat_of_ascii c in
  if Ascii.eqb c quote || Ascii.eqb c backslash then String backslash (String c "")
  else if (n =? 9)%nat then String backslash "t"
  else if (n =? 10)%nat then String backslash "n"
  else if (n =? 13)%nat then String backslash "r"
  else if ((n <? 32) || (n =? 127) || ((128 <=? n) && (n <=? 160)) || (n =? 173))%nat
       then String backslash
              (String "x" (String (hex_digit (n / 16)) (String (hex_digit (n mod 16)) "")))
  else String c "".

Fixpoint escape (quote : ascii) (s : string) : string :=
  match s with
  | EmptyString => EmptyString
  | String c s' => escape_char quote c +:+ escape quote s'
  end.

(** [repr(s)] of a string *)
Definition repr_str (s : string) : string :=
  let quote := if has_char squote s && negb (has_char dquote s)
               then dquote else squote in
  String quote (escape quote s) +:+ String quote "".

Definition str_int (n : Z) : string := NilZero.string_of_int (Z.to_int n).

(** [repr(x)] *)
Fixpoint repr (j : json) : string :=
  match j with
  | JNull => "None"
  | JBool true => "True"
  | JBool false => "False"
  | JInt n => str_int n
  | JStr s => repr_str s
  | JArr l => "[" +:+ join ", " (map repr l) +:+ "]"
  | JObj o =>
      "{" +:+ join ", " (map (fun kv => repr_str (fst kv) +:+ ": " +:+ repr (snd kv)) o)
      +:+ "}"
  end.

(** [str(x)], what an f-string interpolates *)
Definition str (j : json) : string :=
  match j with
  | JStr s => s
  | _ => repr j
  end.

(** [hash(x)] succeeds: [x] can be a dict key *)
Definition hashable (j : json) : bool :=
  match j with
  | JArr _ | JObj _ => false
  | _ => true
  end.

Definition as_int (j : json) : option Z :=
  match j with
  | JBool b => Some (if b then 1%Z else 0%Z)
  | JInt n => Some n
  | _ => None
  end.

(** [a == b] on hashable values: [True == 1] and [False == 0] *)
Definition key_eqb (a b : json) : bool :=
  match a, b with
  | JNull, JNull => true
  | JStr s, JStr t => String.eqb s t
  | _, _ => match as_int a, as_int b with
            | Some m, Some n => Z.eqb m n
            | _, _ => false
            end
  end.

End Py.

(** ** ResponseCache: [fetch_orders_persisted] (lines 97-105)

    The working directory maps a file name to what [json.load(open(name))]
    does with it, and to whether [open(name, "w")] succeeds.  A name that is
    not bound is a file that does not exist ([open(name, "r")] raises
    [IOError]) and that can be created.  [writable] is [false] for a name the
    user may not write: a file without the permission, a directory, a name
    that cannot be created; [open(name, "w")] raises [OSError] there and
    leaves the name as it is.  Where the file can be opened,
    [json.dump(data, open(name, "w"))] replaces it and a later [json.load]
    gives [data] back: a decoded response can always be encoded. *)

Inductive file : Type :=
| Stored (payload : json)         (* json.load returns the payload *)
| Corrupt (writable : bool)       (* json.load raises ValueError *)
| Unreadable (writable : bool).   (* open(name, "r") raises IOError *)

(** Whether [open(name, "w")] succeeds on what a failed read found. *)
Definition can_write (found : option file) : bool :=
  match found with
  | Some (Corrupt writable) | Some (Unreadable writable) => writable
  | _ => true
  end.

Abbreviation disk := (gmap string file).

Definition decimal (n : nat) : string := NilZero.string_of_uint (Nat.to_uint n).

Definition orders_filename (limit offset : nat) : string :=
  "doordash-orders-limit-" +:+ decimal limit +:+ "-offset-" +:+ decimal offset +:+ ".json".

(** What the run does to the outside world, in order. *)
Inductive event : Type :=
| ReadCache (limit offset : nat)   (* open(filename, "r") *)
| Request (limit offset : nat)     (* fetch_orders: one POST to the API *)
| Yield (summary : json)           (* the generator hands one summary over *)
| Sleep.                           (* time.sleep(1) *)

Inductive status : Type :=
| Returned             (* the generator is exhausted (break) *)
| Raised (e : exn)     (* an exception left the generator *)
| Suspended.           (* page budget used up, generator still running *)

Definition ORDERS_FIELD : string := "getConsumerOrdersWithDetails".

Definition QUERY_CHANGED : string :=
  "DoorDash changed their order history GraphQL query. "
  +:+ "Capture the new query from doordash.com (look for GraphQL calls in DevTools Network tab) "
  +:+ "and update ORDERS_QUERY to match.".

Definition FIELD_MISSING : string :=
  "DoorDash response did not include 'getConsumerOrdersWithDetails'. "
  +:+ "Update ORDERS_QUERY to match the current API.".

Definition api_error (error_msg : json) : string :=
  "GraphQL API error: " +:+ Py.str error_msg.

Definition unexpected_structure (keys : list string) : string :=
  "Unexpected API response structure. Expected 'data' key but got: "
  +:+ Py.repr (JArr (map JStr keys)).

(** [list(data.keys())] *)
Definition keys (data : json) : result (list string) :=
  match data with
  | JObj o => Ok (map fst o)
  | _ => Raise AttributeError
  end.

(** The body of the [while True] loop once the page is in hand (lines
    120-156): [Ok None] is [break], [Ok (Some l)] is [yield from l].  The
    [log] calls only print; the one that can raise, [list(data.keys())], is
    kept. *)
Definition check_page (data : json) : result (option (list json)) :=
  do has_errors <- Py.contains "errors" data;
  if has_errors then
    do errors <- Py.getitem data "errors";
    do error_msg <-
      (if Py.truthy errors
       then do first <- Py.getindex errors 0; Py.getitem first "message"
       else Ok (JStr "Unknown error"));
    do names_query <- Py.contains ORDERS_FIELD error_msg;
    do names_old_query <-
      (if names_query then Ok true else Py.contains "ordersHistory" error_msg);
    if names_old_query
    then Raise (RuntimeError QUERY_CHANGED)
    else Raise (RuntimeError (api_error error_msg))
  else
    do has_data <- Py.contains "data" data;
    if negb has_data then
      do ks <- keys data;
      Raise (RuntimeError (unexpected_structure ks))
    else
      do payload <- Py.getitem data "data";
      do orders_history <- Py.get payload ORDERS_FIELD JNull;
      match orders_history with
      | JNull => Raise (RuntimeError FIELD_MISSING)
      | _ =>
          if negb (Py.truthy orders_history) then Ok None
          else do summaries <- Py.iter orders_history; Ok (Some summaries)
      end.

Section Fetcher.

(** [fetch_orders] (lines 75-95): one POST of [ORDERS_QUERY] with the
    given variables and the decoding of the body, or the exception of the
    transport or of the decoder. *)
Variable fetch_orders : nat -> nat -> result json.

(** The [try] block reads the file; the handler of [IOError] and
    [ValueError] fetches the page and writes it, and nothing catches what
    the fetch or the write raise there. *)
Definition fetch_orders_persisted (d : disk) (limit offset : nat)
  : list event * disk * result (json * bool) :=
  let filename := orders_filename limit offset in
  match d !! filename with
  | Some (Stored data) => ([ReadCache limit offset], d, Ok (data, true))
  | found =>
      match fetch_orders limit offset with
      | Ok data =>
          if can_write found then
            ([ReadCache limit offset; Request limit offset],
             <[filename := Stored data]> d, Ok (data, false))
          else ([ReadCache limit offset; Request limit offset], d, Raise OSError)
      | Raise e => ([ReadCache limit offset; Request limit offset], d, Raise e)
      end
  end.

Definition limit : nat := 20.

(** [fetch_all_orders] (lines 107-159) from a given offset, the consumer
    asking for summaries until [budget] pages have been fetched. *)
Fixpoint fetch_all_orders_from (budget : nat) (d : disk) (offset : nat)
  : list event * disk * status :=
  match budget with
  | O => ([], d, Suspended)
  | S budget' =>
      let '(io, d1, fetched) := fetch_orders_persisted d limit offset in
      match fetched with
      | Raise e => (io, d1, Raised e)
      | Ok (data, was_persisted) =>
          match check_page data with
          | Raise e => (io, d1, Raised e)
          | Ok None => (io, d1, Returned)
          | Ok (Some summaries) =>
              let pause := if was_persisted then [] else [Sleep] in
              let '(rest, d2, st) :=
                fetch_all_orders_from budget' d1 (offset + limit) in
              (io ++ map Yield summaries ++ pause ++ rest, d2, st)
          end
      end
  end.

Definition fetch_all_orders (budget : nat) (d : disk) : list event * disk * status :=
  fetch_all_orders_from budget d 0.

End Fetcher.

(** The three ways [json.load(open(filename))] fails. *)
Definition cache_miss (d : disk) (filename : string) : Prop :=
  d !! filename = None
  \/ (exists writable, d !! filename = Some (Corrupt writable))
  \/ (exists writable, d !! filename = Some (Unreadable writable)).


(** The network calls of a trace. *)
Definition requests (tr : list event) : list event :=
  List.filter (fun e => match e with Request _ _ => true | _ => false end) tr.

Definition trace_of (r : list event * disk * status) : list event := fst (fst r).
Definition status_of (r : list event * disk * status) : status := snd r.

Fixpoint yielded (tr : list event) : list json :=
  match tr with
  | [] => []
  | Yield j :: tr' => j :: yielded tr'
  | _ :: tr' => yielded tr'
  end.

(** ** RecordNormalizer: the loop body of [execute] (lines 188-233) *)

(** The dict built at lines 225-232. *)
Record row : Type := Row {
  order_id : json;
  date : json;
  store : json;
  person : string;
  item : json;
  options : string
}.

Definition SENTINEL_DATE : string := "1900-01-01T00:00:00Z".

(** Lines 202-208. *)
Definition person_name (sub_order : json) : result string :=
  do creator <- Py.get sub_order "creator" JNull;
  if Py.truthy creator then
    do first <- Py.get creator "firstName" JNull;
    let first_name := Py.or_ first (JStr "Unknown") in
    do last <- Py.get creator "lastName" JNull;
    let last_name := Py.or_ last (JStr "") in
    Ok (Py.strip (Py.str first_name +:+ " " +:+ Py.str last_name))
  else Ok "Unknown".

(** Lines 216-220: the pairs one extra appends to [options]. *)
Definition extra_pairs (opts : list (json * json)) (extra : json)
  : result (list (json * json)) :=
  do extra_name <- Py.getitem extra "name";
  do extra_options <- Py.get extra "orderItemExtraOptions" (JArr []);
  do extra_options <- Py.iter extra_options;
  for_each (fun opts extra_option =>
              do option_name <- Py.getitem extra_option "name";
              Ok (opts ++ [(extra_name, option_name)]))
           extra_options opts.

(** Lines 222-223. *)
Definition options_string (opts : list (json * json)) : string :=
  Py.join ", " (map (fun nv => Py.str (fst nv) +:+ ": " +:+ Py.str (snd nv)) opts).

(** Lines 212-233: one item of a sub-order becomes one row. *)
Definition item_row (order_id delivery_time store_name : json) (person_name : string)
  (rows : list row) (item : json) : result (list row) :=
  do item_name <- Py.getitem item "name";
  do extras <- Py.get item "orderItemExtras" (JArr []);
  do extras <- Py.iter extras;
  do opts <- for_each extra_pairs extras [];
  Ok (rows ++ [Row order_id delivery_time store_name person_name
                   item_name (options_string opts)]).

(** Lines 201-233: one sub-order of a group order. *)
Definition sub_order_rows (order_id delivery_time store_name : json)
  (rows : list row) (sub_order : json) : result (list row) :=
  do person_name <- person_name sub_order;
  do items <- Py.getitem sub_order "items";
  do items <- Py.iter items;
  for_each (item_row order_id delivery_time store_name person_name) items rows.

(** Line 190. *)
Definition resolve_order_id (order_cart : json) : result json :=
  do uuid <- Py.getitem order_cart "orderUuid";
  if Py.truthy uuid then Ok uuid else Py.getitem order_cart "id".

(** Lines 188-233 for one order summary, appending to [rows]. *)
Definition order_rows (rows : list row) (order_cart : json) : result (list row) :=
  do store_obj <- Py.getitem order_cart "store";
  do store_name <- Py.getitem store_obj "name";
  do submitted <- Py.get order_cart "submittedAt" JNull;
  do delivery_time <-
    (if Py.truthy submitted then Ok submitted
     else Py.get order_cart "createdAt" JNull);
  do order_id <- resolve_order_id order_cart;
  let delivery_time :=
    if Py.truthy delivery_time then delivery_time else JStr SENTINEL_DATE in
  do sub_orders <- Py.getitem order_cart "orders";
  do sub_orders <- Py.iter sub_orders;
  for_each (sub_order_rows order_id delivery_time store_name) sub_orders rows.

(** ** ExportBuilder (lines 237-272)

    A table is the list of the lists handed to [writer.writerow]; the
    quoting done by the csv module is not part of the model. *)

Abbreviation table := (list (list json)).

(** Lines 242-252. *)
Definition itemized_table (rows : list row) : result table :=
  do body <-
    for_each (fun body r =>
                do day <- Py.slice10 (date r);
                Ok (body ++ [[day; store r; JStr (person r); item r; JStr (options r)]]))
             rows [];
  Ok (map JStr ["Date"; "Store"; "Person"; "Item"; "Options"] :: body).

(** [d[k] = v] on a dict with string keys *)
Fixpoint setitem (k : string) (v : json) (d : list (string * json))
  : list (string * json) :=
  match d with
  | [] => [(k, v)]
  | (k', v') :: d' =>
      if String.eqb k k' then (k', v) :: d' else (k', v') :: setitem k v d'
  end.

(** [by_order_id[key]] of the [defaultdict(dict)], followed by the in-place
    update [f] of the dict it returns: a new key goes last. *)
Fixpoint update_group (key : json) (f : list (string * json) -> list (string * json))
  (groups : list (json * list (string * json))) : list (json * list (string * json)) :=
  match groups with
  | [] => [(key, f [])]
  | (k, g) :: groups' =>
      if Py.key_eqb k key then (k, f g) :: groups'
      else (k, g) :: update_group key f groups'
  end.

(** Line 262. *)
Definition cell (r : row) : json := JStr (Py.str (item r) +:+ ". " +:+ options r).

(** Lines 257-262. *)
Definition by_order_id (rows : list row)
  : result (list (json * list (string * json))) :=
  for_each
    (fun groups r =>
       if Py.hashable (order_id r) then
         Ok (update_group (order_id r)
               (fun order =>
                  setitem (person r) (cell r)
                    (setitem "store" (store r) (setitem "date" (date r) order)))
               groups)
       else Raise TypeError)
    rows [].

(** [person_counter[p] += 1] on the [Counter]: a new person goes last. *)
Fixpoint increment (p : string) (counter : list (string * nat)) : list (string * nat) :=
  match counter with
  | [] => [(p, 1)]
  | (q, n) :: counter' =>
      if String.eqb p q then (q, S n) :: counter' else (q, n) :: increment p counter'
  end.

(** Lines 263-265. *)
Definition person_counter (rows : list row) : list (string * nat) :=
  fold_left (fun counter r => increment (person r) counter) rows [].

(** [Counter.most_common()] is [sorted(items, key=count, reverse=True)].
    The sort is stable, also under [reverse], so its result is fixed by the
    input whatever the algorithm; insertion from the right stands for it. *)
Fixpoint insert_by_count (x : string * nat) (l : list (string * nat))
  : list (string * nat) :=
  match l with
  | [] => [x]
  | y :: l' => if (snd x <? snd y)%nat then y :: insert_by_count x l' else x :: l
  end.

Definition most_common (counter : list (string * nat)) : list (string * nat) :=
  fold_right insert_by_count [] counter.

(** Line 266. *)
Definition people (rows : list row) : list string :=
  map fst (most_common (person_counter rows)).

(** [row.get(person, "")] *)
Definition get_cell (order : list (string * json)) (p : string) : json :=
  match assoc p order with
  | Some v => v
  | None => JStr ""
  end.

(** Lines 270-272 for one value of [by_order_id]. *)
Definition pivot_row (ps : list string) (order : list (string * json))
  : result (list json) :=
  let people_values := map (get_cell order) ps in
  do day <- bind (Py.getitem (JObj order) "date") Py.slice10;
  do store_name <- Py.getitem (JObj order) "store";
  Ok ([day; store_name] ++ people_values).

(** Lines 257-272. *)
Definition pivot_table (rows : list row) : result table :=
  do groups <- by_order_id rows;
  let ps := people rows in
  do body <-
    for_each (fun body order => do line <- pivot_row ps order; Ok (body ++ [line]))
             (map snd groups) [];
  Ok (map JStr (["Date"; "Store"] ++ ps) :: body).

(** ** [execute] (lines 185-272) *)

(** [for x in xs: body] once more, with what the body had built when it
    raised. *)
Fixpoint for_each_until {A S : Type} (body : S -> A -> result S) (xs : list A) (s : S)
  : S * option exn :=
  match xs with
  | [] => (s, None)
  | x :: xs' =>
      match body s x with
      | Ok s' => for_each_until body xs' s'
      | Raise e => (s, Some e)
      end
  end.

(** What [doordash.csv] holds when the [with] block of lines 240-252 is
    left, by its end or by an exception: the header and the lines of the
    rows before the first row whose date cannot be sliced. *)
Definition itemized_written (rows : list row) : table :=
  map JStr ["Date"; "Store"; "Person"; "Item"; "Options"]
  :: fst (for_each_until
            (fun body r =>
               do day <- Py.slice10 (date r);
               Ok (body ++ [[day; store r; JStr (person r); item r; JStr (options r)]]))
            rows []).

(** What [doordash-pivot.csv] holds when lines 257-272 are left: nothing is
    opened when the grouping of lines 258-262 raises; else the header and
    the lines of the groups before the first one that raises. *)
Definition pivot_written (rows : list row) : option table :=
  match by_order_id rows with
  | Raise _ => None
  | Ok groups =>
      let ps := people rows in
      Some (map JStr (["Date"; "Store"] ++ ps)
            :: fst (for_each_until
                      (fun body order => do line <- pivot_row ps order; Ok (body ++ [line]))
                      (map snd groups) []))
  end.

(** How [execute] ends.  With an exception come the lines each of the two
    output files holds when it leaves, [None] for a file that was not
    opened and is as it was before the run. *)
Inductive outcome : Type :=
| Finished (itemized pivot : table)
| Failed (e : exn) (itemized pivot : option table)
| Running.

Section Execute.

Variable fetch_orders : nat -> nat -> result json.

(** The summaries are consumed as they are yielded, so an exception of the
    loop body comes before any exception the generator raises later.  The
    output files are opened only after the loop, the pivot only after the
    itemised table is complete and the rows are grouped.  The two output
    files are not cache files: they are no part of [disk], and a table is
    what the writer of the file is handed. *)
Definition execute (budget : nat) (d : disk) : outcome :=
  let run := fetch_all_orders fetch_orders budget d in
  match for_each order_rows (yielded (trace_of run)) [] with
  | Raise e => Failed e None None
  | Ok rows =>
      match status_of run with
      | Raised e => Failed e None None
      | Suspended => Running
      | Returned =>
          match itemized_table rows with
          | Raise e => Failed e (Some (itemized_written rows)) None
          | Ok itemized =>
              match pivot_table rows with
              | Raise e => Failed e (Some itemized) (pivot_written rows)
              | Ok pivot => Finished itemized pivot
              end
          end
      end
  end.

End Execute.

(** ** The response as typed records

    The shape the selection set of [ORDERS_QUERY] gives a summary, with the
    nullable scalars as options.  [is_summary j s] reads: the decoded value
    [j] carries the summary [s]; keys the scraper does not read may be
    present as well. *)

Record Extra : Type := { extraName : string; optionNames : list string }.
Record Item : Type := { itemName : string; extras : list Extra }.
Record Creator : Type := { firstName : option string; lastName : option string }.
Record SubOrder : Type := { creator : option Creator; items : list Item }.
Record OrderSummary : Type := {
  orderUuid : option string;
  numericId : option string;
  submittedAt : option string;
  createdAt : option string;
  storeName : string;
  subOrders : list SubOrder
}.

Definition opt_json (v : option string) : json :=
  match v with
  | Some s => JStr s
  | None => JNull
  end.

(** A nullable scalar: [None] is a key that is absent or holds [null]. *)
Definition holds (o : list (string * json)) (k : string) (v : option string) : Prop :=
  match v with
  | Some s => assoc k o = Some (JStr s)
  | None => assoc k o = None \/ assoc k o = Some JNull
  end.

(** A list-valued key; an absent key is the empty list. *)
Definition holds_list (o : list (string * json)) (k : string) (l : list json) : Prop :=
  assoc k o = Some (JArr l) \/ (assoc k o = None /\ l = []).

Definition is_option (j : json) (name : string) : Prop :=
  exists o, j = JObj o /\ assoc "name" o = Some (JStr name).

Definition is_extra (j : json) (e : Extra) : Prop :=
  exists o opts,
    j = JObj o /\ assoc "name" o = Some (JStr (extraName e))
    /\ holds_list o "orderItemExtraOptions" opts
    /\ Forall2 is_option opts (optionNames e).

Definition is_item (j : json) (it : Item) : Prop :=
  exists o es,
    j = JObj o /\ assoc "name" o = Some (JStr (itemName it))
    /\ holds_list o "orderItemExtras" es
    /\ Forall2 is_extra es (extras it).

Definition has_creator (o : list (string * json)) (c : option Creator) : Prop :=
  match c with
  | None => assoc "creator" o = None \/ assoc "creator" o = Some JNull
  | Some c =>
      exists co, assoc "creator" o = Some (JObj co)
                 /\ holds co "firstName" (firstName c)
                 /\ holds co "lastName" (lastName c)
  end.

Definition is_sub_order (j : json) (so : SubOrder) : Prop :=
  exists o its,
    j = JObj o /\ has_creator o (creator so)
    /\ assoc "items" o = Some (JArr its)
    /\ Forall2 is_item its (items so).

Definition is_summary (j : json) (s : OrderSummary) : Prop :=
  exists o st subs,
    j = JObj o
    /\ assoc "store" o = Some (JObj st) /\ assoc "name" st = Some (JStr (storeName s))
    /\ holds o "submittedAt" (submittedAt s) /\ holds o "createdAt" (createdAt s)
    /\ assoc "orderUuid" o = Some (opt_json (orderUuid s))
    /\ assoc "id" o = Some (opt_json (numericId s))
    /\ assoc "orders" o = Some (JArr subs)
    /\ Forall2 is_sub_order subs (subOrders s).

(** What the scraper makes of the typed summary. *)

Definition or_default (v : option string) (default : string) : string :=
  match v with
  | Some s => if String.eqb s "" then default else s
  | None => default
  end.

Definition display_name (c : option Creator) : string :=
  match c with
  | None => "Unknown"
  | Some c =>
      Py.strip (or_default (firstName c) "Unknown" +:+ " " +:+ or_default (lastName c) "")
  end.

Definition summary_order_id (s : OrderSummary) : json :=
  match orderUuid s with
  | Some u => if String.eqb u "" then opt_json (numericId s) else JStr u
  | None => opt_json (numericId s)
  end.

Definition summary_date (s : OrderSummary) : string :=
  or_default (submittedAt s) (or_default (createdAt s) SENTINEL_DATE).

(** The pairs lines 216-220 append for one extra. *)
Definition json_pairs (e : Extra) : list (json * json) :=
  map (fun n => (JStr (extraName e), JStr n)) (optionNames e).

Definition option_pairs (it : Item) : list (string * string) :=
  flat_map (fun e => map (fun o => (extraName e, o)) (optionNames e)) (extras it).

Definition options_summary (it : Item) : string :=
  Py.join ", " (map (fun p => fst p +:+ ": " +:+ snd p) (option_pairs it)).

Definition flat_row (s : OrderSummary) (so : SubOrder) (it : Item) : row :=
  Row (summary_order_id s) (JStr (summary_date s)) (JStr (storeName s))
      (display_name (creator so)) (JStr (itemName it)) (options_summary it).

Definition flat_rows (s : OrderSummary) : list row :=
  flat_map (fun so => map (flat_row s so) (items so)) (subOrders s).

Definition all_items (s : OrderSummary) : list Item := flat_map items (subOrders s).

(** The person name as the specification words it: first and last name
    joined by a space and trimmed, ["Unknown"] exactly when the creator or
    both names are missing (a missing name contributes nothing). *)
Definition documented_person (c : option Creator) : string :=
  match c with
  | None => "Unknown"
  | Some c =>
      match firstName c, lastName c with
      | None, None => "Unknown"
      | f, l => Py.strip (or_default f "" +:+ " " +:+ or_default l "")
      end
  end.

(** ** A run over valid pages *)

(** A valid page: no [errors], a [data] object, the field an array. *)
Definition valid_page (data : json) (summaries : list json) : Prop :=
  exists o f,
    data = JObj o /\ assoc "errors" o = None
    /\ assoc "data" o = Some (JObj f)
    /\ assoc ORDERS_FIELD f = Some (JArr summaries).

(** Page [n] is the page at offset [n * limit]; against the working
    directory [d] it is served from the cache or by the API. *)
Definition served (fetch_orders : nat -> nat -> result json) (d : disk) (n : nat)
  : result (json * bool) :=
  snd (fetch_orders_persisted fetch_orders d limit (n * limit)).

(** Every page is served and is valid, page [n] holding [pages n]. *)
Definition valid_pages (fetch_orders : nat -> nat -> result json) (d : disk)
  (pages : nat -> list json) : Prop :=
  forall n, exists data was_persisted,
    served fetch_orders d n = Ok (data, was_persisted) /\ valid_page data (pages n).

Definition cached (d : disk) (n : nat) : bool :=
  match d !! orders_filename limit (n * limit) with
  | Some (Stored _) => true
  | _ => false
  end.

(** Fetching page [n]: the cache is tried, then the API. *)
Definition fetch_events (d : disk) (n : nat) : list event :=
  ReadCache limit (n * limit)
  :: (if cached d n then [] else [Request limit (n * limit)]).

(** A non-empty page [n] from its fetch to the next fetch. *)
Definition page_events (d : disk) (pages : nat -> list json) (n : nat) : list event :=
  fetch_events d n ++ map Yield (pages n) ++ (if cached d n then [] else [Sleep]).

(** The trace and status of a run of [budget] pages that starts at page [k]
    of valid pages. *)
Fixpoint valid_run (d : disk) (pages : nat -> list json) (budget k : nat)
  : list event * status :=
  match budget with
  | O => ([], Suspended)
  | S budget' =>
      match pages k with
      | [] => (fetch_events d k, Returned)
      | _ :: _ =>
          let '(rest, st) := valid_run d pages budget' (S k) in
          (page_events d pages k ++ rest, st)
      end
  end.

(** The page files from page [k] on are as in [d]. *)
Definition agree_from (k : nat) (d' d : disk) : Prop :=
  forall m, k <= m ->
            d' !! orders_filename limit (m * limit) = d !! orders_filename limit (m * limit).

(** ** Sample responses *)

(** A group order: Amy has a taco, Bo a burrito with steak. *)
Definition taco : json :=
  JObj [("id", JStr "i1"); ("name", JStr "Taco"); ("quantity", JInt 1);
        ("orderItemExtras", JArr [])].

Definition burrito : json :=
  JObj [("id", JStr "i2"); ("name", JStr "Burrito"); ("quantity", JInt 1);
        ("orderItemExtras",
         JArr [JObj [("menuItemExtraId", JStr "x1"); ("name", JStr "Protein");
                     ("orderItemExtraOptions",
                      JArr [JObj [("menuExtraOptionId", JStr "o1");
                                  ("name", JStr "Steak")]])]])].

Definition sub_order_of (first last : json) (its : list json) : json :=
  JObj [("id", JStr "s");
        ("creator", JObj [("id", JStr "c"); ("firstName", first); ("lastName", last)]);
        ("items", JArr its)].

Definition cart_of (uuid id : json) (subs : list json) : json :=
  JObj [("id", id); ("orderUuid", uuid);
        ("createdAt", JStr "2023-05-01T12:00:00Z"); ("submittedAt", JNull);
        ("store", JObj [("id", JStr "7"); ("name", JStr "Taqueria")]);
        ("orders", JArr subs)].

Definition group_cart : json :=
  cart_of (JStr "u-1") (JStr "77")
    [sub_order_of (JStr "Amy") JNull [taco];
     sub_order_of (JStr "Bo") JNull [burrito]].

Definition group_summary : OrderSummary :=
  {| orderUuid := Some "u-1"; numericId := Some "77";
     submittedAt := None; createdAt := Some "2023-05-01T12:00:00Z";
     storeName := "Taqueria";
     subOrders :=
       [ {| creator := Some {| firstName := Some "Amy"; lastName := None |};
            items := [ {| itemName := "Taco"; extras := [] |} ] |};
         {| creator := Some {| firstName := Some "Bo"; lastName := None |};
            items := [ {| itemName := "Burrito";
                          extras := [ {| extraName := "Protein";
                                         optionNames := ["Steak"] |} ] |} ] |} ] |}.

(** A cart whose [orderUuid] and [id] are both null. *)
Definition anonymous_cart : json :=
  cart_of JNull JNull [sub_order_of (JStr "Amy") JNull [taco]].

(** A sub-order whose creator has a last name only. *)
Definition smith_sub_order : json := sub_order_of JNull (JStr "Smith") [taco].

Definition smith : Creator := {| firstName := None; lastName := Some "Smith" |}.

Definition page_of (summaries : list json) : json :=
  JObj [("data", JObj [(ORDERS_FIELD, JArr summaries)])].

(** An API with the group order on its first page and nothing after it. *)
Definition one_page_api (lim offset : nat) : result json :=
  match offset with
  | O => Ok (page_of [group_cart])
  | S _ => Ok (page_of [])
  end.

Definition one_page (n : nat) : list json :=
  match n with
  | O => [group_cart]
  | S _ => []
  end.

Definition api_down (lim offset : nat) : result json :=
  Raise (TransportError "connection refused").

Definition field_error : list (string * json) :=
  [("message", JStr "Cannot query field getConsumerOrdersWithDetails")].

(** ** Order of first appearance *)

(** The values of [l] in the order of their first appearance, two values
    being the same when [eqb] says so. *)
Fixpoint dedup {K : Type} (eqb : K -> K -> bool) (l : list K) : list K :=
  match l with
  | [] => []
  | k :: l' => k :: List.filter (fun y => negb (eqb k y)) (dedup eqb l')
  end.

(** What a dict does to its keys when [k] is written: a key equal to [k]
    stays where it is, a new key goes last. *)
Definition add_key {K : Type} (eqb : K -> K -> bool) (k : K) (ks : list K) : list K :=
  if existsb (fun k' => eqb k' k) ks then ks else ks ++ [k].

(** The persons of the rows in stream order, those seen in order of first
    appearance, and the number of rows of a person. *)
Definition persons (rows : list row) : list string := map person rows.

Definition first_seen (rows : list row) : list string :=
  dedup String.eqb (persons rows).

Definition item_count (rows : list row) (p : string) : nat :=
  length (List.filter (String.eqb p) (persons rows)).

(** [person_counter[p]] *)
Definition count_of (p : string) (counter : list (string * nat)) : nat :=
  match assoc p counter with
  | Some n => n
  | None => 0
  end.

(** The order ids of the rows in order of first appearance. *)
Definition orders_seen (rows : list row) : list json :=
  dedup Py.key_eqb (map order_id rows).

(** [by_order_id[k]]: the first (and only) entry whose key equals [k]. *)
Fixpoint group_of (k : json) (groups : list (json * list (string * json)))
  : option (list (string * json)) :=
  match groups with
  | [] => None
  | (k', g) :: groups' => if Py.key_eqb k' k then Some g else group_of k groups'
  end.

(** The last row of order [k] that is of person [p]. *)
Definition last_row_of (k : json) (p : string) (rows : list row) : option row :=
  List.find (fun r => Py.key_eqb (order_id r) k && String.eqb (person r) p) (rev rows).

(** The updates of lines 259-262 for one row. *)
Definition group_step (groups : list (json * list (string * json))) (r : row)
  : list (json * list (string * json)) :=
  update_group (order_id r)
    (fun order =>
       setitem (person r) (cell r)
         (setitem "store" (store r) (setitem "date" (date r) order)))
    groups.

(** A row the exports can take: its order id can be a dict key and its
    date is a string. *)
Definition row_ok (r : row) : bool :=
  Py.hashable (order_id r)
  && match date r with
     | JStr _ => true
     | _ => false
     end.

(** A group as [by_order_id] leaves it: a [store] and a string [date]. *)
Definition group_ok (g : list (string * json)) : Prop :=
  (exists s, assoc "date" g = Some (JStr s)) /\ (exists v, assoc "store" g = Some v).

(** The line of the pivot for one group. *)
Definition pivot_line (ps : list string) (g : list (string * json)) : list json :=
  let day := match assoc "date" g with
             | Some (JStr s) => JStr (String.substring 0 10 s)
             | _ => JNull
             end in
  let store_name := match assoc "store" g with Some v => v | None => JNull end in
  [day; store_name] ++ map (get_cell g) ps.

(** Keys of a dict that are pairwise different. *)
Definition distinct_keys (ks : list json) : Prop :=
  StronglySorted (fun a b => Py.key_eqb a b = false) ks.

Definition by_count (x y : string * nat) : Prop := snd y <= snd x.

(** [x] comes before [y] in [l]. *)
Definition before {A : Type} (l : list A) (x y : A) : Prop :=
  exists l1 l2 l3, l = l1 ++ x :: l2 ++ y :: l3.

(** The rows of the group order. *)
Definition group_rows : list row := flat_rows group_summary.

(** Rows of one order in which a person is called [date]. *)
Definition rows_with_date_person : list row :=
  [ Row (JStr "u-2") (JStr "2023-06-02T18:30:00Z") (JStr "Taqueria") "date" (JStr "Taco") "";
    Row (JStr "u-2") (JStr "2023-06-02T18:30:00Z") (JStr "Taqueria") "Bo" (JStr "Burrito") "" ].

(** The line of the itemised table for one row with a string date. *)
Definition itemized_line (r : row) : list json :=
  let day := match date r with
             | JStr s => JStr (String.substring 0 10 s)
             | _ => JNull
             end in
  [day; store r; JStr (person r); item r; JStr (options r)].

(** ** The scraper object and its requests (lines 56-95) *)

Definition GRAPHQL_URL : string := "https://api-consumer-client.doordash.com/graphql".

Definition ORDERS_QUERY : string := "
    query getConsumerOrdersWithDetails($offset: Int!, $limit: Int!, $includeCancelled: Boolean, $orderFilterType: OrderFilterType) {
      getConsumerOrdersWithDetails(
        offset: $offset
        limit: $limit
        includeCancelled: $includeCancelled
        orderFilterType: $orderFilterType
      ) {
        id
        orderUuid
        createdAt
        submittedAt
        store {
          id
          name
        }
        orders {
          id
          creator {
            id
            firstName
            lastName
          }
          items {
            id
            name
            quantity
            specialInstructions
            orderItemExtras {
              menuItemExtraId
              name
              orderItemExtraOptions {
                menuExtraOptionId
                name
                description
                price
                quantity
              }
            }
          }
        }
      }
    }
".

Definition USER_AGENT : string :=
  "Mozilla/5.0 (Macintosh; Intel Mac OS X 10_15_7) AppleWebKit/537.36 "
  +:+ "(KHTML, like Gecko) Chrome/120.0.0.0 Safari/537.36".

(** The attributes [__init__] sets. *)
Record scraper : Type := { sessionid : json; verbose : bool }.

(** One call of [requests.post(url=..., json=..., headers=...)]. *)
Record request : Type := { url : string; json_body : json; headers : list (string * json) }.

Module Http.

(** [__init__] (lines 57-63). *)
Definition init (sessionid : json) (verbose : bool) : result scraper :=
  if negb (Py.truthy sessionid) then Raise TypeError
  else Ok {| sessionid := sessionid; verbose := verbose |}.

(** [session_cookie] (lines 65-70). *)
Definition session_cookie (self : scraper) : result json :=
  do full <- Py.contains ";" (sessionid self);
  if full then Ok (sessionid self)
  else Ok (JStr ("sessionid=" +:+ Py.str (sessionid self))).

(** Lines 78-92: the body and the headers of the POST. *)
Definition orders_request (self : scraper) (limit offset : nat) : result request :=
  let variables :=
    JObj [("limit", JInt (Z.of_nat limit)); ("offset", JInt (Z.of_nat offset));
          ("includeCancelled", JBool true); ("orderFilterType", JNull)] in
  let body :=
    JObj [("query", JStr ORDERS_QUERY); ("variables", variables);
          ("operationName", JStr "getConsumerOrdersWithDetails")] in
  do cookie <- session_cookie self;
  Ok {| url := GRAPHQL_URL;
        json_body := body;
        headers := [("cookie", cookie);
                    ("user-agent", JStr USER_AGENT);
                    ("content-type", JStr "application/json");
                    ("accept", JStr "*/*");
                    ("origin", JStr "https://www.doordash.com");
                    ("referer", JStr "https://www.doordash.com/consumer/order-history/")] |}.

Section Transport.

(** [requests.post] gives the text of the response or raises; [json.loads]
    decodes it or raises. *)
Variable post : request -> result string.
Variable loads : string -> result json.

(** [fetch_orders] (lines 75-95), with the POSTs it sent. *)
Definition fetch_orders (self : scraper) (limit offset : nat)
  : list request * result json :=
  match orders_request self limit offset with
  | Raise e => ([], Raise e)
  | Ok req => ([req], do text <- post req; loads text)
  end.

End Transport.

End Http.

(** ** The receipt cache: [fetch_receipt_persisted] (lines 175-183) *)

Definition receipt_filename (order_id : json) : string :=
  "doordash-receipt-id-" +:+ Py.str order_id +:+ ".json".

Section Receipts.

(** [fetch_receipt] (lines 161-173): one GET for the receipt of an order
    and the decoding of the body, or the exception of either. *)
Variable fetch_receipt : json -> result json.

(** The order ids asked of the API, the directory afterwards, the result. *)
Definition fetch_receipt_persisted (d : disk) (order_id : json)
  : list json * disk * result (json * bool) :=
  let filename := receipt_filename order_id in
  match d !! filename with
  | Some (Stored data) => ([], d, Ok (data, true))
  | found =>
      match fetch_receipt order_id with
      | Ok data =>
          if can_write found
          then ([order_id], <[filename := Stored data]> d, Ok (data, false))
          else ([order_id], d, Raise OSError)
      | Raise e => ([order_id], d, Raise e)
      end
  end.

End Receipts.


(** A string of decimal digits. *)
Fixpoint all_digits (s : string) : bool :=
  match s with
  | EmptyString => true
  | String c s' =>
      (let n := nat_of_ascii c in (48 <=? n) && (n <=? 57))%nat && all_digits s'
  end.

(** A response that carries an error of the API. *)
Definition error_page : json := JObj [("errors", JArr [JObj field_error])].




(** A response that carries both an error and orders. *)
Definition partial_page : json :=
  JObj [("errors", JArr [JObj [("message", JStr "timeout")]]);
        ("data", JObj [(ORDERS_FIELD, JArr [group_cart])])].

(** The offsets at which a trace looks into the cache, in order. *)
Fixpoint reads (tr : list event) : list (nat * nat) :=
  match tr with
  | [] => []
  | ReadCache l o :: tr' => (l, o) :: reads tr'
  | _ :: tr' => reads tr'
  end.

(** The number of pauses of a trace. *)
Fixpoint sleeps (tr : list event) : nat :=
  match tr with
  | [] => 0
  | Sleep :: tr' => S (sleeps tr')
  | _ :: tr' => sleeps tr'
  end.

(** The first [n] pages are valid and not empty, page [n] is valid and
    empty: the run ends at page [n]. *)
Definition ends_at (fetch_orders : nat -> nat -> result json) (d : disk)
  (pages : nat -> list json) (n : nat) : Prop :=
  (forall m, m < n ->
             exists data was_persisted,
               served fetch_orders d m = Ok (data, was_persisted)
               /\ valid_page data (pages m) /\ pages m <> [])
  /\ exists data was_persisted,
      served fetch_orders d n = Ok (data, was_persisted) /\ valid_page data [].

(** The pages of [d] that have to come from the API. *)
Definition uncached (d : disk) (ms : list nat) : list nat :=
  List.filter (fun m => negb (cached d m)) ms.

(** An API whose second page reports that the query is not known. *)
Definition drifting_api (lim offset : nat) : result json :=
  match offset with
  | O => Ok (page_of [group_cart])
  | S _ => Ok error_page
  end.

(** A value [x[:10]] accepts. *)
Definition sliceable (j : json) : bool :=
  match j with
  | JStr _ | JArr _ => true
  | _ => false
  end.

(** A row whose date is a dict: the one date on which the exception of
    [row["date"][:10]] depends on the version of Python. *)
Definition dict_date (r : row) : bool :=
  match date r with
  | JObj _ => true
  | _ => false
  end.

(** The last row of order [k]. *)
Definition last_row_in (k : json) (rows : list row) : option row :=
  List.find (fun r => Py.key_eqb (order_id r) k) (rev rows).

(** The fields the rows of one summary share. *)
Definition of_order (oid dt st : json) (r : row) : Prop :=
  order_id r = oid /\ date r = dt /\ store r = st.

(** A transport that always answers with an empty page, and a decoder for
    that one text. *)
Definition canned_post (req : request) : result string := Ok "empty page".

Definition canned_loads (text : string) : result json :=
  if String.eqb text "empty page" then Ok (page_of []) else Raise TypeError.

(** ** The loop body of [execute] with its messages (lines 188-233)

    [order_rows_logged verbose index rows order_cart] is [order_rows] with,
    in front, the messages handed to [self.log] for this summary, which
    [log] prints after the time of day: the warning of line 194 and, in
    verbose mode, the progress line of line 198.  [index] is the position
    [enumerate] gives the summary.  Both messages come before the loop over
    the sub-orders, so they are printed also when that loop raises. *)
Definition order_rows_logged (verbose : bool) (index : nat) (rows : list row)
  (order_cart : json) : list string * result (list row) :=
  match
    (do store_obj <- Py.getitem order_cart "store";
     do store_name <- Py.getitem store_obj "name";
     do submitted <- Py.get order_cart "submittedAt" JNull;
     do delivery_time <-
       (if Py.truthy submitted then Ok submitted
        else Py.get order_cart "createdAt" JNull);
     do order_id <- resolve_order_id order_cart;
     Ok (store_name, delivery_time, order_id))
  with
  | Raise e => ([], Raise e)
  | Ok (store_name, delivery_time, order_id) =>
      let warning :=
        if Py.truthy delivery_time then []
        else ["Warning: Order " +:+ Py.str order_id
              +:+ " missing timestamp, using placeholder date"] in
      let delivery_time :=
        if Py.truthy delivery_time then delivery_time else JStr SENTINEL_DATE in
      let progress :=
        if verbose
        then ["Processing order " +:+ Py.str order_id +:+ " from " +:+ Py.str store_name
              +:+ " (" +:+ decimal index +:+ ")"]
        else [] in
      (warning ++ progress,
       do sub_orders <- Py.getitem order_cart "orders";
       do sub_orders <- Py.iter sub_orders;
       for_each (sub_order_rows order_id delivery_time store_name) sub_orders rows)
  end.

(** [j] carries the summary [s] apart from its [id] field, which holds
    [id]: any JSON value, a number for instance. *)
Definition is_summary_with_id (j : json) (s : OrderSummary) (id : json) : Prop :=
  exists o st subs,
    j = JObj o
    /\ assoc "store" o = Some (JObj st) /\ assoc "name" st = Some (JStr (storeName s))
    /\ holds o "submittedAt" (submittedAt s) /\ holds o "createdAt" (createdAt s)
    /\ assoc "orderUuid" o = Some (opt_json (orderUuid s))
    /\ assoc "id" o = Some id
    /\ assoc "orders" o = Some (JArr subs)
    /\ Forall2 is_sub_order subs (subOrders s).

(** A cart without [orderUuid] whose [id] is a number, and what it carries
    apart from the id. *)
Definition numbered_cart : json :=
  cart_of JNull (JInt 77) [sub_order_of (JStr "Amy") JNull [taco]].

Definition amy_summary : OrderSummary :=
  {| orderUuid := None; numericId := None;
     submittedAt := None; createdAt := Some "2023-05-01T12:00:00Z";
     storeName := "Taqueria";
     subOrders :=
       [ {| creator := Some {| firstName := Some "Amy"; lastName := None |};
            items := [ {| itemName := "Taco"; extras := [] |} ] |} ] |}.

(** A cart whose [createdAt] is a number, a cart whose [orderUuid] is a
    list, and an API with given summaries on its first page and nothing
    after it. *)
Definition stamped_cart : json :=
  JObj [("id", JStr "78"); ("orderUuid", JStr "u-2");
        ("createdAt", JInt 1683000000); ("submittedAt", JNull);
        ("store", JObj [("id", JStr "7"); ("name", JStr "Taqueria")]);
        ("orders", JArr [sub_order_of (JStr "Amy") JNull [taco]])].

Definition listed_cart : json :=
  cart_of (JArr [JStr "u-3"]) (JStr "79") [sub_order_of (JStr "Amy") JNull [taco]].

Definition api_of (summaries : list json) (lim offset : nat) : result json :=
  match offset with
  | O => Ok (page_of summaries)
  | S _ => Ok (page_of [])
  end.

(** Every request of a trace comes right after the cache lookup for the
    same limit and offset; [prev] is the key of the lookup that has just
    been made, if any. *)
Fixpoint requests_follow (prev : option (nat * nat)) (tr : list event) : Prop :=
  match tr with
  | [] => True
  | ReadCache l o :: tr' => requests_follow (Some (l, o)) tr'
  | Request l o :: tr' => prev = Some (l, o) /\ requests_follow None tr'
  | _ :: tr' => requests_follow None tr'
  end.

(** * Properties *)

(** ** The page cache *)

Section CacheProperties.

Variable fetch_orders : nat -> nat -> result json.


Lemma persisted_miss d limit offset :
  cache_miss d (orders_filename limit offset) ->
  fetch_orders_persisted fetch_orders d limit offset
  = match fetch_orders limit offset with
    | Ok data =>
        if can_write (d !! orders_filename limit offset) then
          ([ReadCache limit offset; Request limit offset],
           <[orders_filename limit offset := Stored data]> d, Ok (data, false))
        else ([ReadCache limit offset; Request limit offset], d, Raise OSError)
    | Raise e => ([ReadCache limit offset; Request limit offset], d, Raise e)
    end.
Proof.
  intros [Miss | [[w Miss] | [w Miss]]]; unfold fetch_orders_persisted; now rewrite Miss.
Qed.


End CacheProperties.

(** ** Validation of a page *)

Section ValidationProperties.

Variable fetch_orders : nat -> nat -> result json.

(** An exception of the loop body leaves the generator at once. *)
Lemma generator_raises budget d offset io d1 data was_persisted e :
  fetch_orders_persisted fetch_orders d limit offset
  = (io, d1, Ok (data, was_persisted)) ->
  check_page data = Raise e ->
  fetch_all_orders_from fetch_orders (S budget) d offset = (io, d1, Raised e).
Proof. intros Hfetch Hcheck. cbn [fetch_all_orders_from]. now rewrite Hfetch, Hcheck. Qed.

Lemma check_page_errors o errors :
  assoc "errors" o = Some errors ->
  check_page (JObj o)
  = do error_msg <-
      (if Py.truthy errors
       then do first <- Py.getindex errors 0; Py.getitem first "message"
       else Ok (JStr "Unknown error"));
    do names_query <- Py.contains ORDERS_FIELD error_msg;
    do names_old_query <-
      (if names_query then Ok true else Py.contains "ordersHistory" error_msg);
    if names_old_query
    then Raise (RuntimeError QUERY_CHANGED)
    else Raise (RuntimeError (api_error error_msg)).
Proof.
  intros Herr. unfold check_page.
  cbn [Py.contains Py.getitem bind]. now rewrite Herr.
Qed.

Lemma check_page_no_errors o :
  assoc "errors" o = None ->
  check_page (JObj o)
  = match assoc "data" o with
    | None => Raise (RuntimeError (unexpected_structure (map fst o)))
    | Some payload =>
        do orders_history <- Py.get payload ORDERS_FIELD JNull;
        match orders_history with
        | JNull => Raise (RuntimeError FIELD_MISSING)
        | _ =>
            if negb (Py.truthy orders_history) then Ok None
            else do summaries <- Py.iter orders_history; Ok (Some summaries)
        end
    end.
Proof.
  intros Herr. unfold check_page.
  cbn [Py.contains Py.getitem bind keys]. rewrite Herr.
  now destruct (assoc "data" o).
Qed.

(** C2.  A page whose [errors] array starts with an error that has a
    message: when the message names [getConsumerOrdersWithDetails] or
    [ordersHistory] the generator raises the query-changed error, whose
    text names [ORDERS_QUERY] as what to update; otherwise it raises the
    API error that carries the message.  Nothing of the page is yielded
    and no further page is fetched.  The message
    [Cannot query field getConsumerOrdersWithDetails] gives the
    query-changed error. *)
Theorem errors_are_classified
  (o first : list (string * json)) (rest : list json) (message : string) :
  assoc "errors" o = Some (JArr (JObj first :: rest)) ->
  assoc "message" first = Some (JStr message) ->
  let known :=
    Py.substring_of ORDERS_FIELD message || Py.substring_of "ordersHistory" message in
  let raised :=
    RuntimeError (if known then QUERY_CHANGED else "GraphQL API error: " +:+ message) in
  check_page (JObj o) = Raise raised
  /\ (forall budget d offset io d1 was_persisted,
        fetch_orders_persisted fetch_orders d limit offset
        = (io, d1, Ok (JObj o, was_persisted)) ->
        fetch_all_orders_from fetch_orders (S budget) d offset = (io, d1, Raised raised))
  /\ Py.substring_of "ORDERS_QUERY" QUERY_CHANGED = true
  /\ check_page
       (JObj [("errors",
               JArr [JObj [("message",
                            JStr "Cannot query field getConsumerOrdersWithDetails")]])])
     = Raise (RuntimeError QUERY_CHANGED).
Proof.
  intros Herr Hmsg known raised.
  assert (Hcheck : check_page (JObj o) = Raise raised).
  { rewrite (check_page_errors _ _ Herr).
    cbn [Py.truthy Py.getindex nth_error bind Py.getitem]. rewrite Hmsg.
    cbn [bind Py.contains]. subst raised known.
    destruct (Py.substring_of ORDERS_FIELD message); cbn [bind orb]; [reflexivity |].
    cbn [Py.contains]. now destruct (Py.substring_of "ordersHistory" message). }
  split; [exact Hcheck |]. split; [| split; reflexivity].
  intros budget d offset io d1 wp Hfetch.
  exact (generator_raises _ _ _ _ _ _ _ _ Hfetch Hcheck).
Qed.

(** C10.  A page whose [errors] key holds the empty array: the generator
    raises the API error with the message [Unknown error]; the page is
    neither a success nor the query-changed error. *)
Theorem empty_errors_is_api_error (o : list (string * json)) :
  assoc "errors" o = Some (JArr []) ->
  check_page (JObj o) = Raise (RuntimeError "GraphQL API error: Unknown error")
  /\ "GraphQL API error: Unknown error" <> QUERY_CHANGED
  /\ (forall budget d offset io d1 was_persisted,
        fetch_orders_persisted fetch_orders d limit offset
        = (io, d1, Ok (JObj o, was_persisted)) ->
        fetch_all_orders_from fetch_orders (S budget) d offset
        = (io, d1, Raised (RuntimeError "GraphQL API error: Unknown error"))).
Proof.
  intros Herr.
  assert (Hcheck : check_page (JObj o)
                   = Raise (RuntimeError "GraphQL API error: Unknown error")).
  { now rewrite (check_page_errors _ _ Herr). }
  split; [exact Hcheck |]. split; [discriminate |].
  intros budget d offset io d1 wp Hfetch.
  exact (generator_raises _ _ _ _ _ _ _ _ Hfetch Hcheck).
Qed.

(** The two shape failures the loop names, on a response without [errors]:
    no [data] key, and a [data] object whose field is absent or null. *)
Lemma shape_failures (o : list (string * json)) :
  assoc "errors" o = None ->
  (assoc "data" o = None ->
   check_page (JObj o) = Raise (RuntimeError (unexpected_structure (map fst o))))
  /\ (forall f,
        assoc "data" o = Some (JObj f) ->
        assoc ORDERS_FIELD f = None \/ assoc ORDERS_FIELD f = Some JNull ->
        check_page (JObj o) = Raise (RuntimeError FIELD_MISSING)).
Proof.
  intros Herr. rewrite (check_page_no_errors _ Herr). split.
  - now intros ->.
  - intros f -> [Hf | Hf]; cbn [Py.get bind]; now rewrite Hf.
Qed.

End ValidationProperties.

(** C3.  A response without [errors] whose [data] key holds [null]: the key
    is present and the field is absent, yet the generator leaves with the
    [AttributeError] of [None.get], which is not the missing-field error;
    so on the first page of a run, whatever the budget. *)
Theorem null_data_is_unclassified :
  let response := JObj [("data", JNull)] in
  check_page response = Raise AttributeError
  /\ Raise (A := option (list json)) AttributeError <> Raise (RuntimeError FIELD_MISSING)
  /\ (forall budget,
        status_of (fetch_all_orders (fun _ _ => Ok response) (S budget) ∅)
        = Raised AttributeError).
Proof.
  intros response. split; [reflexivity |]. split; [discriminate |].
  intros budget. reflexivity.
Qed.

(** ** The pagination loop *)

Lemma list_ascii_of_append s t :
  list_ascii_of_string (s +:+ t) = list_ascii_of_string s ++ list_ascii_of_string t.
Proof. induction s as [| c s IH]; simpl; [reflexivity | now rewrite IH]. Qed.

Lemma append_inv_tail s1 s2 t : s1 +:+ t = s2 +:+ t -> s1 = s2.
Proof.
  intros H. apply (f_equal list_ascii_of_string) in H.
  rewrite !list_ascii_of_append in H. apply app_inv_tail in H.
  rewrite <- (string_of_list_ascii_of_string s1), <- (string_of_list_ascii_of_string s2).
  now rewrite H.
Qed.

Lemma to_uint_nonnil n : Nat.to_uint n <> Decimal.Nil.
Proof.
  intros H. pose proof (Unsigned.to_of (Nat.to_uint n)) as E.
  rewrite Unsigned.of_to, H in E. discriminate E.
Qed.

Lemma decimal_inj a b : decimal a = decimal b -> a = b.
Proof.
  unfold decimal. intros H. apply (f_equal NilZero.uint_of_string) in H.
  rewrite !NilZero.usu in H by apply to_uint_nonnil.
  apply Unsigned.to_uint_inj. now injection H.
Qed.

Lemma orders_filename_inj limit a b :
  orders_filename limit a = orders_filename limit b -> a = b.
Proof.
  unfold orders_filename. intros H.
  do 3 apply String.app_inj in H.
  now apply decimal_inj, (append_inv_tail _ _ ".json").
Qed.

Lemma check_valid_page data summaries :
  valid_page data summaries ->
  check_page data = Ok (match summaries with [] => None | _ => Some summaries end).
Proof.
  intros (o & f & -> & Herr & Hdata & Hfield).
  rewrite (check_page_no_errors _ Herr), Hdata. cbn [Py.get bind]. rewrite Hfield.
  now destruct summaries.
Qed.

Section PaginationProperties.

Variable fetch_orders : nat -> nat -> result json.
Variable d : disk.
Variable pages : nat -> list json.

Lemma agree_from_succ k d' : agree_from k d' d -> agree_from (S k) d' d.
Proof. intros H m Hm. apply H. lia. Qed.

Lemma agree_from_insert k d' data :
  agree_from k d' d ->
  agree_from (S k) (<[orders_filename limit (k * limit) := Stored data]> d') d.
Proof.
  intros H m Hm. rewrite lookup_insert_ne; [apply H; lia |].
  intros E. apply orders_filename_inj in E. unfold limit in E. lia.
Qed.

(** One turn of the loop against the current directory [d'] does what it
    would do against the initial one. *)
Lemma fetch_page_agree k d' data was_persisted :
  agree_from k d' d ->
  served fetch_orders d k = Ok (data, was_persisted) ->
  was_persisted = cached d k
  /\ exists d1,
      fetch_orders_persisted fetch_orders d' limit (k * limit)
      = (fetch_events d k, d1, Ok (data, was_persisted))
      /\ agree_from (S k) d1 d.
Proof.
  intros Hagree Hserved.
  unfold served, fetch_orders_persisted in Hserved.
  unfold fetch_orders_persisted, fetch_events, cached.
  rewrite (Hagree k (le_n k)).
  destruct (d !! orders_filename limit (k * limit)) as [[stored | w | w] |];
    [ injection Hserved as <- <-; split; [reflexivity |];
      exists d'; split; [reflexivity | now apply agree_from_succ]
    | destruct (fetch_orders limit (k * limit)) as [fetched | e];
      [ cbn [can_write] in Hserved |- *; try destruct w; try discriminate Hserved;
        injection Hserved as <- <-; split; [reflexivity |];
        eexists; split; [reflexivity | now apply agree_from_insert]
      | discriminate Hserved ] .. ].
Qed.

Lemma run_valid_pages :
  valid_pages fetch_orders d pages ->
  forall budget k d',
    agree_from k d' d ->
    let run := fetch_all_orders_from fetch_orders budget d' (k * limit) in
    (trace_of run, status_of run) = valid_run d pages budget k.
Proof.
  intros Hvalid. induction budget as [| budget IH]; intros k d' Hagree; [reflexivity |].
  destruct (Hvalid k) as (data & was_persisted & Hserved & Hpage).
  destruct (fetch_page_agree k d' data was_persisted Hagree Hserved)
    as (Hcached & d1 & Hfetch & Hagree1).
  cbn [fetch_all_orders_from valid_run]. rewrite Hfetch, (check_valid_page _ _ Hpage).
  destruct (pages k) as [| summary summaries] eqn:Hk; [reflexivity |].
  specialize (IH (S k) d1 Hagree1). cbn zeta in IH.
  replace (k * limit + limit) with (S k * limit) by (cbn [Nat.mul]; lia).
  destruct (fetch_all_orders_from fetch_orders budget d1 (S k * limit)) as [[rest d2] st].
  unfold trace_of, status_of in *. cbn [fst snd] in *.
  rewrite <- IH. unfold page_events. rewrite Hk, <- Hcached.
  now rewrite <- !app_assoc.
Qed.

End PaginationProperties.

Section ValidRun.

Variable d : disk.
Variable pages : nat -> list json.

Lemma valid_run_returned budget : forall k tr,
  valid_run d pages budget k = (tr, Returned) ->
  exists n,
    k <= n < k + budget /\ pages n = []
    /\ (forall m, k <= m < n -> pages m <> [])
    /\ tr = flat_map (page_events d pages) (seq k (n - k)) ++ fetch_events d n.
Proof.
  induction budget as [| budget IH]; intros k tr Hrun; [discriminate Hrun |].
  cbn [valid_run] in Hrun. destruct (pages k) as [| summary summaries] eqn:Hk.
  - injection Hrun as <-. exists k. rewrite Nat.sub_diag.
    repeat split; [lia | lia | exact Hk | intros m Hm; lia].
  - destruct (valid_run d pages budget (S k)) as [rest st] eqn:Hrest.
    injection Hrun as <- ->.
    destruct (IH (S k) rest Hrest) as (n & Hn & Hempty & Hbefore & ->).
    exists n. repeat split; [lia | lia | exact Hempty | |].
    + intros m Hm. destruct (Nat.eq_dec m k) as [-> | Hne].
      * now rewrite Hk.
      * apply Hbefore. lia.
    + replace (n - k) with (S (n - S k)) by lia.
      cbn [seq flat_map]. unfold page_events at 2, fetch_events at 1.
      cbn [app]. now rewrite <- !app_assoc.
Qed.

Lemma valid_run_suspended budget : forall k tr,
  valid_run d pages budget k = (tr, Suspended) ->
  (forall m, k <= m < k + budget -> pages m <> [])
  /\ tr = flat_map (page_events d pages) (seq k budget).
Proof.
  induction budget as [| budget IH]; intros k tr Hrun.
  - injection Hrun as <-. split; [intros m Hm; lia | reflexivity].
  - cbn [valid_run] in Hrun. destruct (pages k) as [| summary summaries] eqn:Hk;
      [discriminate Hrun |].
    destruct (valid_run d pages budget (S k)) as [rest st] eqn:Hrest.
    injection Hrun as <- ->.
    destruct (IH (S k) rest Hrest) as (Hfull & ->). split; [| reflexivity].
    intros m Hm. destruct (Nat.eq_dec m k) as [-> | Hne].
    + now rewrite Hk.
    + apply Hfull. lia.
Qed.

Lemma valid_run_never_raises budget : forall k e,
  snd (valid_run d pages budget k) <> Raised e.
Proof.
  induction budget as [| budget IH]; intros k e; [discriminate |].
  cbn [valid_run]. destruct (pages k); [discriminate |].
  specialize (IH (S k) e). now destruct (valid_run d pages budget (S k)).
Qed.

Lemma valid_run_reaches budget : forall k n,
  k <= n < k + budget -> pages n = [] ->
  snd (valid_run d pages budget k) = Returned.
Proof.
  induction budget as [| budget IH]; intros k n Hn Hempty; [lia |].
  cbn [valid_run]. destruct (pages k) eqn:Hk; [reflexivity |].
  assert (Hne : n <> k) by (intros ->; rewrite Hempty in Hk; discriminate Hk).
  specialize (IH (S k) n ltac:(lia) Hempty).
  now destruct (valid_run d pages budget (S k)).
Qed.

Lemma yielded_app tr1 tr2 : yielded (tr1 ++ tr2) = yielded tr1 ++ yielded tr2.
Proof.
  induction tr1 as [| e tr1 IH]; [reflexivity |].
  destruct e; cbn [yielded app]; now rewrite IH.
Qed.

Lemma yielded_map_Yield l : yielded (map Yield l) = l.
Proof. induction l as [| x l IH]; [reflexivity |]. cbn. now rewrite IH. Qed.

Lemma yielded_fetch_events n : yielded (fetch_events d n) = [].
Proof. unfold fetch_events. now destruct (cached d n). Qed.

Lemma yielded_page_events n : yielded (page_events d pages n) = pages n.
Proof.
  unfold page_events. rewrite !yielded_app, yielded_fetch_events, yielded_map_Yield.
  destruct (cached d n); cbn; now rewrite app_nil_r.
Qed.

Lemma yielded_pages l :
  yielded (flat_map (page_events d pages) l) = flat_map pages l.
Proof.
  induction l as [| n l IH]; [reflexivity |].
  cbn [flat_map]. now rewrite yielded_app, yielded_page_events, IH.
Qed.

End ValidRun.

(** C1.  Over valid pages the stream ends exactly when some page is empty;
    it ends at the first empty page, after every summary of every page
    before it was yielded in the order received, each page's summaries
    between its fetch and the fetch of the next page; as long as the pages
    are non-empty it keeps running, and it never raises. *)
Theorem stream_ends_at_first_empty_page
  (fetch_orders : nat -> nat -> result json) (d : disk) (pages : nat -> list json) :
  valid_pages fetch_orders d pages ->
  let run budget := fetch_all_orders fetch_orders budget d in
  ((exists budget, status_of (run budget) = Returned) <-> (exists n, pages n = []))
  /\ (forall budget,
        status_of (run budget) = Returned ->
        exists n,
          n < budget /\ pages n = [] /\ (forall m, m < n -> pages m <> [])
          /\ trace_of (run budget)
             = flat_map (page_events d pages) (seq 0 n) ++ fetch_events d n
          /\ yielded (trace_of (run budget)) = flat_map pages (seq 0 n))
  /\ (forall budget,
        (forall m, m < budget -> pages m <> []) ->
        status_of (run budget) = Suspended
        /\ trace_of (run budget) = flat_map (page_events d pages) (seq 0 budget))
  /\ (forall budget e, status_of (run budget) <> Raised e).
Proof.
  intros Hvalid run.
  assert (Hrun : forall budget,
             (trace_of (run budget), status_of (run budget)) = valid_run d pages budget 0).
  { intros budget. apply (run_valid_pages fetch_orders d pages Hvalid budget 0 d).
    now intros m _. }
  assert (Hreturned : forall budget,
             status_of (run budget) = Returned ->
             exists n,
               n < budget /\ pages n = [] /\ (forall m, m < n -> pages m <> [])
               /\ trace_of (run budget)
                  = flat_map (page_events d pages) (seq 0 n) ++ fetch_events d n).
  { intros budget Hst. specialize (Hrun budget). rewrite Hst in Hrun. symmetry in Hrun.
    destruct (valid_run_returned d pages budget 0 _ Hrun)
      as (n & Hn & Hempty & Hbefore & Htr).
    exists n. rewrite Nat.sub_0_r in Htr.
    repeat split; [lia | exact Hempty | intros m Hm; apply Hbefore; lia | exact Htr]. }
  assert (Hstatus : forall budget,
             status_of (run budget) = snd (valid_run d pages budget 0)).
  { intros budget. now rewrite <- (Hrun budget). }
  split; [split |]; [| | split; [| split]].
  - intros [budget Hst]. destruct (Hreturned budget Hst) as (n & _ & Hempty & _).
    now exists n.
  - intros [n Hempty]. exists (S n). rewrite Hstatus.
    apply (valid_run_reaches d pages (S n) 0 n); [lia | exact Hempty].
  - intros budget Hst. destruct (Hreturned budget Hst) as (n & Hn & Hempty & Hbefore & Htr).
    exists n. repeat split; try assumption.
    rewrite Htr, yielded_app, yielded_pages, yielded_fetch_events. apply app_nil_r.
  - intros budget Hfull. pose proof (Hrun budget) as E.
    destruct (status_of (run budget)) as [| e |] eqn:Hst.
    + destruct (Hreturned budget Hst) as (n & Hn & Hempty & _). now destruct (Hfull n Hn).
    + rewrite Hstatus in Hst. now destruct (valid_run_never_raises d pages budget 0 e).
    + split; [reflexivity |]. symmetry in E.
      now destruct (valid_run_suspended d pages budget 0 _ E) as [_ ->].
  - intros budget e. rewrite Hstatus. apply valid_run_never_raises.
Qed.

Lemma one_page_api_valid : valid_pages one_page_api ∅ one_page.
Proof.
  intros n. unfold served, fetch_orders_persisted. rewrite lookup_empty.
  destruct n as [| n]; cbn [Nat.mul Nat.add limit one_page_api one_page snd].
  - exists (page_of [group_cart]), false. split; [reflexivity |].
    now exists [("data", JObj [(ORDERS_FIELD, JArr [group_cart])])],
               [(ORDERS_FIELD, JArr [group_cart])].
  - exists (page_of []), false. split; [reflexivity |].
    now exists [("data", JObj [(ORDERS_FIELD, JArr [])])], [(ORDERS_FIELD, JArr [])].
Qed.

Lemma stream_ends_at_first_empty_page_witness :
  exists budget, status_of (fetch_all_orders one_page_api budget ∅) = Returned.
Proof.
  apply (proj1 (stream_ends_at_first_empty_page one_page_api ∅ one_page
                  one_page_api_valid)).
  now exists 1.
Defined.

Lemma errors_are_classified_witness :
  check_page (JObj [("errors", JArr [JObj field_error])])
  = Raise (RuntimeError QUERY_CHANGED).
Proof.
  exact (proj1 (errors_are_classified api_down
                  [("errors", JArr [JObj field_error])] field_error []
                  "Cannot query field getConsumerOrdersWithDetails"
                  eq_refl eq_refl)).
Defined.

Lemma empty_errors_is_api_error_witness :
  check_page (JObj [("errors", JArr []); ("data", JNull)])
  = Raise (RuntimeError "GraphQL API error: Unknown error").
Proof.
  exact (proj1 (empty_errors_is_api_error api_down
                  [("errors", JArr []); ("data", JNull)] eq_refl)).
Defined.



(** ** Flattening *)

Lemma holds_get o k v :
  holds o k v -> Py.get (JObj o) k JNull = Ok (opt_json v).
Proof.
  unfold holds, Py.get. destruct v as [s |].
  - now intros ->.
  - now intros [-> | ->].
Qed.

Lemma or_opt_json v default :
  Py.str (Py.or_ (opt_json v) (JStr default)) = or_default v default.
Proof.
  destruct v as [s |]; [| reflexivity].
  unfold Py.or_, or_default. cbn [opt_json Py.truthy].
  now destruct (String.eqb s "").
Qed.

Lemma holds_list_iter o k l :
  holds_list o k l ->
  (do v <- Py.get (JObj o) k (JArr []); Py.iter v) = Ok l.
Proof. unfold holds_list, Py.get. now intros [-> | [-> ->]]. Qed.

Lemma option_loop (extra_name : json) opts names : forall acc,
  Forall2 is_option opts names ->
  for_each (fun acc extra_option =>
              do option_name <- Py.getitem extra_option "name";
              Ok (acc ++ [(extra_name, option_name)]))
           opts acc
  = Ok (acc ++ map (fun n => (extra_name, JStr n)) names).
Proof.
  intros acc H. revert acc.
  induction H as [| j name opts names (o & -> & Hname) _ IH]; intros acc.
  - cbn. now rewrite app_nil_r.
  - cbn [for_each Py.getitem]. rewrite Hname. cbn [bind].
    rewrite IH. cbn [map]. now rewrite <- app_assoc.
Qed.

Lemma extra_pairs_shaped j e acc :
  is_extra j e -> extra_pairs acc j = Ok (acc ++ json_pairs e).
Proof.
  intros (o & opts & -> & Hname & Hopts & Hall).
  unfold extra_pairs. cbn [Py.getitem]. rewrite Hname. cbn [bind].
  pose proof (holds_list_iter _ _ _ Hopts) as Hiter.
  destruct (Py.get (JObj o) "orderItemExtraOptions" (JArr [])) as [v | e0];
    [| discriminate Hiter].
  cbn [bind] in Hiter |- *. rewrite Hiter. cbn [bind].
  now apply option_loop.
Qed.

Lemma extras_loop es xs : forall acc,
  Forall2 is_extra es xs ->
  for_each extra_pairs es acc = Ok (acc ++ flat_map json_pairs xs).
Proof.
  intros acc H. revert acc. induction H as [| j e es xs Hje _ IH]; intros acc.
  - cbn. now rewrite app_nil_r.
  - cbn [for_each flat_map]. rewrite (extra_pairs_shaped _ _ _ Hje). cbn [bind].
    rewrite IH. now rewrite <- app_assoc.
Qed.

Lemma options_string_pairs (it : Item) :
  options_string (flat_map json_pairs (extras it)) = options_summary it.
Proof.
  unfold options_string, options_summary, option_pairs. f_equal.
  induction (extras it) as [| e es IH]; [reflexivity |].
  cbn [flat_map]. rewrite !map_app, IH. f_equal.
  unfold json_pairs. rewrite !map_map. reflexivity.
Qed.

Lemma item_row_shaped order_id delivery_time store_name person_name j it rows :
  is_item j it ->
  item_row order_id delivery_time store_name person_name rows j
  = Ok (rows ++ [Row order_id delivery_time store_name person_name
                     (JStr (itemName it)) (options_summary it)]).
Proof.
  intros (o & es & -> & Hname & Hextras & Hall).
  unfold item_row. cbn [Py.getitem]. rewrite Hname. cbn [bind].
  pose proof (holds_list_iter _ _ _ Hextras) as Hiter.
  destruct (Py.get (JObj o) "orderItemExtras" (JArr [])) as [v | e0];
    [| discriminate Hiter].
  cbn [bind] in Hiter |- *. rewrite Hiter. cbn [bind].
  rewrite (extras_loop _ _ [] Hall). cbn [bind app].
  now rewrite options_string_pairs.
Qed.

Lemma items_loop order_id delivery_time store_name person_name its its' :
  forall rows,
  Forall2 is_item its its' ->
  for_each (item_row order_id delivery_time store_name person_name) its rows
  = Ok (rows ++ map (fun it => Row order_id delivery_time store_name person_name
                                   (JStr (itemName it)) (options_summary it)) its').
Proof.
  intros rows H. revert rows. induction H as [| j it its its' Hj _ IH]; intros rows.
  - cbn. now rewrite app_nil_r.
  - cbn [for_each]. rewrite (item_row_shaped _ _ _ _ _ _ _ Hj). cbn [bind].
    rewrite IH. cbn [map]. now rewrite <- app_assoc.
Qed.

Lemma person_name_shaped o c :
  has_creator o c -> person_name (JObj o) = Ok (display_name c).
Proof.
  unfold person_name, has_creator. destruct c as [c |].
  - intros (co & Hc & Hfirst & Hlast). cbn [Py.get]. rewrite Hc. cbn [bind].
    destruct co as [| field co].
    + destruct c as [[f |] [l |]]; cbn in Hfirst, Hlast;
        try discriminate Hfirst; try discriminate Hlast. reflexivity.
    + cbn [Py.truthy].
      rewrite (holds_get _ _ _ Hfirst). cbn [bind].
      rewrite (holds_get _ _ _ Hlast). cbn [bind].
      now rewrite !or_opt_json.
  - intros [Hc | Hc]; cbn [Py.get]; now rewrite Hc.
Qed.

Lemma sub_order_rows_shaped order_id delivery_time store_name j so rows :
  is_sub_order j so ->
  sub_order_rows order_id delivery_time store_name rows j
  = Ok (rows ++ map (fun it => Row order_id delivery_time store_name
                                   (display_name (creator so))
                                   (JStr (itemName it)) (options_summary it))
                    (items so)).
Proof.
  intros (o & its & -> & Hcreator & Hitems & Hall).
  unfold sub_order_rows. rewrite (person_name_shaped _ _ Hcreator). cbn [bind Py.getitem].
  rewrite Hitems. cbn [bind Py.iter]. now apply items_loop.
Qed.

Lemma sub_orders_loop order_id delivery_time store_name subs sos :
  forall rows,
  Forall2 is_sub_order subs sos ->
  for_each (sub_order_rows order_id delivery_time store_name) subs rows
  = Ok (rows ++ flat_map
                  (fun so => map (fun it => Row order_id delivery_time store_name
                                                (display_name (creator so))
                                                (JStr (itemName it)) (options_summary it))
                                 (items so))
                  sos).
Proof.
  intros rows H. revert rows. induction H as [| j so subs sos Hj _ IH]; intros rows.
  - cbn. now rewrite app_nil_r.
  - cbn [for_each]. rewrite (sub_order_rows_shaped _ _ _ _ _ _ Hj). cbn [bind].
    rewrite IH. cbn [flat_map]. now rewrite <- app_assoc.
Qed.

Lemma resolve_order_id_shaped o uuid id :
  assoc "orderUuid" o = Some (opt_json uuid) ->
  assoc "id" o = Some (opt_json id) ->
  resolve_order_id (JObj o)
  = Ok (match uuid with
        | Some u => if String.eqb u "" then opt_json id else JStr u
        | None => opt_json id
        end).
Proof.
  intros Huuid Hid. unfold resolve_order_id. cbn [Py.getitem]. rewrite Huuid, Hid.
  cbn [bind]. destruct uuid as [u |]; [| reflexivity].
  cbn [opt_json Py.truthy]. now destruct (String.eqb u "").
Qed.

Lemma delivery_time_shaped o submitted created :
  holds o "submittedAt" submitted -> holds o "createdAt" created ->
  (do first <- Py.get (JObj o) "submittedAt" JNull;
   if Py.truthy first then Ok first else Py.get (JObj o) "createdAt" JNull)
  = Ok (match submitted with
        | Some t => if String.eqb t "" then opt_json created else JStr t
        | None => opt_json created
        end).
Proof.
  intros Hs Hc. rewrite (holds_get _ _ _ Hs), (holds_get _ _ _ Hc). cbn [bind].
  destruct submitted as [t |]; [| reflexivity].
  cbn [opt_json Py.truthy]. now destruct (String.eqb t "").
Qed.

(** The loop body of [execute] on a well-shaped summary appends the rows of
    the typed summary. *)
Lemma order_rows_shaped j s rows :
  is_summary j s -> order_rows rows j = Ok (rows ++ flat_rows s).
Proof.
  intros (o & st & subs & -> & Hstore & Hname & Hs & Hc & Huuid & Hid & Horders & Hall).
  unfold order_rows. cbn [Py.getitem]. rewrite Hstore. cbn [bind Py.getitem].
  rewrite Hname. cbn [bind].
  pose proof (delivery_time_shaped _ _ _ Hs Hc) as Hdate.
  destruct (Py.get (JObj o) "submittedAt" JNull) as [submitted | e0];
    [| discriminate Hdate].
  cbn [bind] in Hdate |- *. rewrite Hdate. cbn [bind].
  rewrite (resolve_order_id_shaped _ _ _ Huuid Hid). cbn [bind].
  rewrite Horders. cbn [bind Py.iter].
  rewrite (sub_orders_loop _ _ _ _ _ _ Hall). f_equal. f_equal.
  unfold flat_rows, flat_row, summary_order_id, summary_date, or_default.
  destruct (submittedAt s) as [t |], (createdAt s) as [t' |];
    repeat (cbn [opt_json Py.truthy negb];
            repeat match goal with
                   | E : String.eqb ?x "" = _ |- context [String.eqb ?x ""] => rewrite E
                   end;
            try match goal with
                | |- context [String.eqb ?x ""] => destruct (String.eqb x "") eqn:?
                end);
    reflexivity.
Qed.

Lemma flat_rows_item (s : OrderSummary) :
  map item (flat_rows s) = map (fun it => JStr (itemName it)) (all_items s).
Proof.
  unfold flat_rows, all_items. induction (subOrders s) as [| so sos IH]; [reflexivity |].
  cbn [flat_map]. rewrite !map_app, IH, map_map. reflexivity.
Qed.

Lemma flat_rows_options (s : OrderSummary) :
  map options (flat_rows s) = map options_summary (all_items s).
Proof.
  unfold flat_rows, all_items. induction (subOrders s) as [| so sos IH]; [reflexivity |].
  cbn [flat_map]. rewrite !map_app, IH, map_map. reflexivity.
Qed.

Lemma flat_rows_order_id (s : OrderSummary) r :
  In r (flat_rows s) -> order_id r = summary_order_id s.
Proof.
  unfold flat_rows. rewrite in_flat_map. intros (so & _ & Hr).
  apply in_map_iff in Hr. now destruct Hr as (it & <- & _).
Qed.

(** The loop of [execute] over well-shaped summaries. *)
Lemma all_order_rows_shaped js ss : forall rows,
  Forall2 is_summary js ss ->
  for_each order_rows js rows = Ok (rows ++ flat_map flat_rows ss).
Proof.
  intros rows H. revert rows. induction H as [| j s js ss Hj _ IH]; intros rows.
  - cbn. now rewrite app_nil_r.
  - cbn [for_each]. rewrite (order_rows_shaped _ _ _ Hj). cbn [bind].
    rewrite IH. cbn [flat_map]. now rewrite <- app_assoc.
Qed.

(** Solves [is_summary j s] and the like on concrete values. *)
Ltac shaped :=
  repeat first
    [ reflexivity
    | apply Forall2_nil
    | apply Forall2_cons
    | progress unfold is_summary, is_sub_order, is_item, is_extra, is_option,
        has_creator, holds_list, holds
    | left; reflexivity
    | right; reflexivity
    | split
    | eexists ].

Lemma group_cart_shaped : is_summary group_cart group_summary.
Proof. shaped. Qed.

(** C7.  The loop of [execute] over well-shaped summaries emits one row per
    item, in input order: the n-th row carries the name of the n-th item and
    its options summary, which joins with [", "] every
    [extraName: optionName] pair in source order and is empty when the item
    has no such pair. *)
Theorem one_row_per_item (js : list json) (ss : list OrderSummary) :
  Forall2 is_summary js ss ->
  let its := flat_map all_items ss in
  exists rows,
    for_each order_rows js [] = Ok rows
    /\ rows = flat_map flat_rows ss
    /\ length rows = length its
    /\ (forall n,
          option_map item (nth_error rows n)
          = option_map (fun it => JStr (itemName it)) (nth_error its n)
          /\ option_map options (nth_error rows n)
             = option_map
                 (fun it => Py.join ", " (map (fun p => fst p +:+ ": " +:+ snd p)
                                              (option_pairs it)))
                 (nth_error its n))
    /\ (forall it, option_pairs it = [] -> options_summary it = "").
Proof.
  intros Hshaped its. exists (flat_map flat_rows ss).
  assert (Hitem : map item (flat_map flat_rows ss)
                  = map (fun it => JStr (itemName it)) its).
  { subst its. clear Hshaped. induction ss as [| s ss IH]; [reflexivity |].
    cbn [flat_map]. now rewrite !map_app, IH, flat_rows_item. }
  assert (Hoptions : map options (flat_map flat_rows ss) = map options_summary its).
  { subst its. clear Hshaped Hitem. induction ss as [| s ss IH]; [reflexivity |].
    cbn [flat_map]. now rewrite !map_app, IH, flat_rows_options. }
  split; [apply (all_order_rows_shaped js ss [] Hshaped) |].
  split; [reflexivity |]. split; [| split].
  - rewrite <- (length_map item), Hitem. apply length_map.
  - intros n. rewrite <- !nth_error_map, Hitem, Hoptions. split; reflexivity.
  - intros it Hnone. unfold options_summary. now rewrite Hnone.
Qed.

Lemma one_row_per_item_witness :
  exists rows,
    for_each order_rows [group_cart] [] = Ok rows
    /\ map item rows = [JStr "Taco"; JStr "Burrito"]
    /\ map options rows = [""; "Protein: Steak"].
Proof.
  assert (Hshaped : Forall2 is_summary [group_cart] [group_summary])
    by (repeat first [apply group_cart_shaped | constructor]).
  destruct (one_row_per_item [group_cart] [group_summary] Hshaped)
    as (rows & Hrows & -> & _).
  exists (flat_map flat_rows [group_summary]). split; [exact Hrows |].
  split; reflexivity.
Defined.

(** C5 (counterexample).  The order whose [orderUuid] and [id] are both null
    is not skipped: its item gets a row, with a null order id. *)
Lemma null_order_id_is_processed :
  exists r,
    order_rows [] anonymous_cart = Ok [r]
    /\ order_id r = JNull /\ Py.truthy (order_id r) = false.
Proof. eexists. repeat split. Qed.

Lemma resolve_order_id_any o uuid id :
  assoc "orderUuid" o = Some (opt_json uuid) ->
  assoc "id" o = Some id ->
  resolve_order_id (JObj o)
  = Ok (match uuid with
        | Some u => if String.eqb u "" then id else JStr u
        | None => id
        end).
Proof.
  intros Huuid Hid. unfold resolve_order_id. cbn [Py.getitem]. rewrite Huuid, Hid.
  cbn [bind]. destruct uuid as [u |]; [| reflexivity].
  cbn [opt_json Py.truthy]. now destruct (String.eqb u "").
Qed.

Lemma is_summary_any_id j s : is_summary j s -> is_summary_with_id j s (opt_json (numericId s)).
Proof. exact (fun H => H). Qed.

(** The rows of [order_rows_logged] are those of [order_rows]. *)
Lemma order_rows_logged_rows verbose index rows j :
  snd (order_rows_logged verbose index rows j) = order_rows rows j.
Proof.
  unfold order_rows_logged, order_rows.
  destruct (Py.getitem j "store") as [store_obj | e]; [| reflexivity]. cbn [bind].
  destruct (Py.getitem store_obj "name") as [store_name | e]; [| reflexivity]. cbn [bind].
  destruct (Py.get j "submittedAt" JNull) as [submitted | e]; [| reflexivity]. cbn [bind].
  destruct (if Py.truthy submitted then Ok submitted else Py.get j "createdAt" JNull)
    as [delivery_time | e]; [| reflexivity]. cbn [bind].
  destruct (resolve_order_id j) as [order_id | e]; reflexivity.
Qed.

(** The loop body on a summary that is well shaped apart from its id. *)
Lemma order_rows_logged_shaped j s id verbose index rows :
  is_summary_with_id j s id ->
  let resolved := match orderUuid s with
                  | Some u => if String.eqb u "" then id else JStr u
                  | None => id
                  end in
  let undated :=
    String.eqb (or_default (submittedAt s) (or_default (createdAt s) "")) "" in
  order_rows_logged verbose index rows j
  = ((if undated
      then ["Warning: Order " +:+ Py.str resolved
            +:+ " missing timestamp, using placeholder date"]
      else [])
     ++ (if verbose
         then ["Processing order " +:+ Py.str resolved +:+ " from " +:+ storeName s
               +:+ " (" +:+ decimal index +:+ ")"]
         else []),
     Ok (rows ++ flat_map
                   (fun so => map (fun it => Row resolved (JStr (summary_date s))
                                                 (JStr (storeName s))
                                                 (display_name (creator so))
                                                 (JStr (itemName it)) (options_summary it))
                                  (items so))
                   (subOrders s))).
Proof.
  intros (o & st & subs & -> & Hstore & Hname & Hs & Hc & Huuid & Hid & Horders & Hall)
         resolved undated.
  unfold order_rows_logged. cbn [Py.getitem]. rewrite Hstore. cbn [bind Py.getitem].
  rewrite Hname. cbn [bind].
  pose proof (delivery_time_shaped _ _ _ Hs Hc) as Hdate.
  destruct (Py.get (JObj o) "submittedAt" JNull) as [submitted | e0];
    [| discriminate Hdate].
  cbn [bind] in Hdate |- *. rewrite Hdate. cbn [bind].
  rewrite (resolve_order_id_any _ _ _ Huuid Hid). cbn [bind].
  fold resolved. rewrite Horders. cbn [bind Py.iter Py.str].
  rewrite (sub_orders_loop _ _ _ _ _ rows Hall).
  subst undated. unfold summary_date, or_default.
  destruct (submittedAt s) as [t |], (createdAt s) as [t' |];
    repeat (cbn [opt_json Py.truthy negb];
            try change (String.eqb "" "") with true;
            repeat match goal with
                   | E : String.eqb ?x "" = _ |- context [String.eqb ?x ""] => rewrite E
                   end;
            try match goal with
                | |- context [String.eqb ?x ""] => destruct (String.eqb x "") eqn:?
                end);
    reflexivity.
Qed.

(** C5 (as amended).  The order id of a summary is its [orderUuid] when that
    is a non-empty string and its [id] as received otherwise, whatever JSON
    value that is.  Nothing checks the result: whatever it is, null
    included, the summary gets its one row per item and every row carries
    it.  The messages logged for the summary are the warning of a missing
    timestamp and, in verbose mode, the progress line: none is about the
    id. *)
Theorem order_id_prefers_uuid (j : json) (s : OrderSummary) (id : json)
  (verbose : bool) (index : nat) :
  is_summary_with_id j s id ->
  let resolved := match orderUuid s with
                  | Some u => if String.eqb u "" then id else JStr u
                  | None => id
                  end in
  let undated :=
    String.eqb (or_default (submittedAt s) (or_default (createdAt s) "")) "" in
  resolve_order_id j = Ok resolved
  /\ exists rows,
      order_rows [] j = Ok rows
      /\ length rows = length (all_items s)
      /\ (forall r, In r rows -> order_id r = resolved)
      /\ order_rows_logged verbose index [] j
         = ((if undated
             then ["Warning: Order " +:+ Py.str resolved
                   +:+ " missing timestamp, using placeholder date"]
             else [])
            ++ (if verbose
                then ["Processing order " +:+ Py.str resolved +:+ " from " +:+ storeName s
                      +:+ " (" +:+ decimal index +:+ ")"]
                else []),
            Ok rows).
Proof.
  intros Hshaped resolved undated.
  pose proof (order_rows_logged_shaped j s id verbose index [] Hshaped) as Hlogged.
  cbv zeta in Hlogged. fold resolved undated in Hlogged. split.
  - destruct Hshaped as (o & st & subs & -> & _ & _ & _ & _ & Huuid & Hid & _).
    now apply resolve_order_id_any.
  - eexists. split; [| split; [| split; [| exact Hlogged]]].
    + rewrite <- (order_rows_logged_rows verbose index). now rewrite Hlogged.
    + cbn [app]. unfold all_items. clear.
      induction (subOrders s) as [| so sos IH]; [reflexivity |].
      cbn [flat_map]. now rewrite !length_app, IH, length_map.
    + cbn [app]. intros r Hr. apply in_flat_map in Hr. destruct Hr as (so & _ & Hr).
      apply in_map_iff in Hr. now destruct Hr as (it & <- & _).
Qed.

Lemma order_id_prefers_uuid_witness :
  resolve_order_id numbered_cart = Ok (JInt 77)
  /\ exists rows,
      order_rows [] numbered_cart = Ok rows
      /\ length rows = 1
      /\ (forall r, In r rows -> order_id r = JInt 77)
      /\ order_rows_logged false 0 [] numbered_cart = ([], Ok rows).
Proof.
  assert (Hshaped : is_summary_with_id numbered_cart amy_summary (JInt 77)).
  { unfold is_summary_with_id. shaped. }
  exact (order_id_prefers_uuid numbered_cart amy_summary (JInt 77) false 0 Hshaped).
Defined.

(** C6 (counterexample).  A creator with a last name only: the scraper calls
    the person [Unknown Smith], neither [Unknown] nor the trimmed join of
    the two names. *)
Lemma missing_first_name_reads_unknown :
  person_name smith_sub_order = Ok "Unknown Smith"
  /\ documented_person (Some smith) = "Smith"
  /\ person_name smith_sub_order <> Ok (documented_person (Some smith)).
Proof. repeat split. discriminate. Qed.

(** C6 (as amended).  The person of a sub-order is the first name, or
    [Unknown] when that is absent, null or empty, a space, and the last name,
    or nothing when that is absent, null or empty, the whole trimmed; it is
    [Unknown] when there is no creator and when both names are missing; a
    creator named Amy without a last name gives [Amy]. *)
Theorem person_name_defaults (o : list (string * json)) (c : option Creator) :
  has_creator o c ->
  person_name (JObj o)
  = Ok (match c with
        | None => "Unknown"
        | Some c =>
            Py.strip (or_default (firstName c) "Unknown" +:+ " "
                      +:+ or_default (lastName c) "")
        end)
  /\ (c = None -> person_name (JObj o) = Ok "Unknown")
  /\ (forall c', c = Some c' -> firstName c' = None -> lastName c' = None ->
                 person_name (JObj o) = Ok "Unknown")
  /\ (c = Some {| firstName := Some "Amy"; lastName := None |} ->
      person_name (JObj o) = Ok "Amy").
Proof.
  intros Hc. pose proof (person_name_shaped o c Hc) as Hname.
  split; [exact Hname |]. split; [| split].
  - intros ->. exact Hname.
  - intros [f l] -> Hf Hl. cbn in Hf, Hl. subst f l. exact Hname.
  - intros ->. exact Hname.
Qed.

Lemma person_name_defaults_witness :
  person_name (JObj [("creator", JObj [("firstName", JStr "Amy"); ("lastName", JNull)])])
  = Ok "Amy".
Proof.
  apply (person_name_defaults
           [("creator", JObj [("firstName", JStr "Amy"); ("lastName", JNull)])]
           (Some {| firstName := Some "Amy"; lastName := None |})).
  - shaped.
  - reflexivity.
Defined.

(** ** Insertion order of dict keys *)

Section InsertionOrder.

Context {K : Type} (eqb : K -> K -> bool).
Hypothesis eqb_trans : forall a b c, eqb a b = true -> eqb b c = true -> eqb a c = true.

Lemma filter_filter (P Q : K -> bool) l :
  List.filter P (List.filter Q l) = List.filter (fun y => Q y && P y) l.
Proof.
  induction l as [| x l IH]; [reflexivity |].
  cbn [List.filter]. destruct (Q x); cbn [List.filter andb]; [| exact IH].
  destruct (P x); now rewrite IH.
Qed.

Lemma filter_pointwise (P Q : K -> bool) l :
  (forall y, P y = Q y) -> List.filter P l = List.filter Q l.
Proof.
  intros Heq. induction l as [| x l IH]; [reflexivity |].
  cbn [List.filter]. now rewrite Heq, IH.
Qed.

Lemma keys_in_insertion_order l : forall ks,
  fold_left (fun ks k => add_key eqb k ks) l ks
  = ks ++ List.filter (fun y => negb (existsb (fun k' => eqb k' y) ks)) (dedup eqb l).
Proof using eqb_trans.
  induction l as [| k l IH]; intros ks.
  - cbn. now rewrite app_nil_r.
  - cbn [fold_left dedup List.filter]. rewrite IH. unfold add_key.
    destruct (existsb (fun k' => eqb k' k) ks) eqn:Hk; cbn [negb].
    + f_equal. rewrite filter_filter. apply filter_pointwise. intros y.
      destruct (existsb (fun k' => eqb k' y) ks) eqn:Hy; cbn [negb];
        [now rewrite andb_false_r |].
      rewrite andb_true_r. destruct (eqb k y) eqn:Hky; [| reflexivity].
      apply existsb_exists in Hk. destruct Hk as (k0 & Hin & Hk0).
      assert (Hcontra : existsb (fun k' => eqb k' y) ks = true).
      { apply existsb_exists. exists k0. split; [exact Hin |]. now apply (eqb_trans k0 k y). }
      rewrite Hcontra in Hy. discriminate Hy.
    + rewrite <- app_assoc. cbn [app]. do 2 f_equal.
      rewrite filter_filter. apply filter_pointwise. intros y.
      rewrite existsb_app. cbn [existsb]. rewrite orb_false_r.
      destruct (existsb (fun k' => eqb k' y) ks), (eqb k y); reflexivity.
Qed.

Lemma keys_from_empty l :
  fold_left (fun ks k => add_key eqb k ks) l [] = dedup eqb l.
Proof using eqb_trans.
  rewrite keys_in_insertion_order. cbn [app negb existsb].
  induction (dedup eqb l) as [| x d IH]; [reflexivity |]. cbn. now rewrite IH.
Qed.

End InsertionOrder.

(** ** The person counter *)

Lemma string_eqb_trans a b c :
  String.eqb a b = true -> String.eqb b c = true -> String.eqb a c = true.
Proof. rewrite !String.eqb_eq. congruence. Qed.

Lemma keys_increment p counter :
  map fst (increment p counter) = add_key String.eqb p (map fst counter).
Proof.
  unfold add_key. induction counter as [| [q n] counter IH]; [reflexivity |].
  cbn [increment map fst existsb]. rewrite (String.eqb_sym q p).
  destruct (String.eqb p q); cbn [orb map fst]; [reflexivity |].
  rewrite IH. now destruct (existsb (fun k' => String.eqb k' p) (map fst counter)).
Qed.

Lemma keys_counter_fold rows : forall counter,
  map fst (fold_left (fun counter r => increment (person r) counter) rows counter)
  = fold_left (fun ks k => add_key String.eqb k ks) (map person rows) (map fst counter).
Proof.
  induction rows as [| r rows IH]; intros counter; [reflexivity |].
  cbn [fold_left map]. now rewrite IH, keys_increment.
Qed.

Lemma keys_person_counter rows : map fst (person_counter rows) = first_seen rows.
Proof.
  unfold person_counter, first_seen, persons. rewrite keys_counter_fold.
  apply (keys_from_empty String.eqb string_eqb_trans).
Qed.

Lemma count_of_increment q p counter :
  count_of q (increment p counter)
  = count_of q counter + (if String.eqb q p then 1 else 0).
Proof.
  unfold count_of. induction counter as [| [p' n] counter IH].
  - cbn [increment assoc]. destruct (String.eqb q p); reflexivity.
  - cbn [increment assoc]. destruct (String.eqb p p') eqn:Hp.
    + apply String.eqb_eq in Hp. subst p'. cbn [assoc].
      destruct (String.eqb q p); lia.
    + cbn [assoc]. destruct (String.eqb q p') eqn:Hq; [| exact IH].
      apply String.eqb_eq in Hq. subst p'. rewrite String.eqb_sym, Hp. lia.
Qed.

Lemma count_of_counter_fold q rows : forall counter,
  count_of q (fold_left (fun counter r => increment (person r) counter) rows counter)
  = count_of q counter + length (List.filter (String.eqb q) (map person rows)).
Proof.
  induction rows as [| r rows IH]; intros counter.
  - cbn. lia.
  - cbn [fold_left map List.filter]. rewrite IH, count_of_increment.
    destruct (String.eqb q (person r)); cbn [length]; lia.
Qed.

Lemma count_of_person_counter q rows :
  count_of q (person_counter rows) = item_count rows q.
Proof. unfold person_counter. now rewrite count_of_counter_fold. Qed.

Lemma NoDup_dedup (l : list string) : List.NoDup (dedup String.eqb l).
Proof.
  induction l as [| x l IH]; cbn [dedup]; constructor.
  - intros Hin. apply filter_In in Hin. destruct Hin as [_ Hne].
    now rewrite String.eqb_refl in Hne.
  - now apply List.NoDup_filter.
Qed.

Lemma assoc_NoDup {V : Type} p (v : V) (o : list (string * V)) :
  List.NoDup (map fst o) -> In (p, v) o -> assoc p o = Some v.
Proof.
  induction o as [| [q w] o IH]; intros Hnd Hin; [destruct Hin |].
  cbn [map fst] in Hnd. apply List.NoDup_cons_iff in Hnd. destruct Hnd as [Hq Hnd].
  cbn [assoc]. destruct Hin as [Heq | Hin].
  - injection Heq as -> ->. now rewrite String.eqb_refl.
  - destruct (String.eqb p q) eqn:Hpq; [| now apply IH].
    apply String.eqb_eq in Hpq. subst q. destruct Hq.
    apply in_map_iff. now exists (p, v).
Qed.

(** The counter holds, in order of first appearance, every person with the
    number of that person's rows. *)
Lemma person_counter_closed rows :
  person_counter rows = map (fun p => (p, item_count rows p)) (first_seen rows).
Proof.
  rewrite <- keys_person_counter, map_map.
  rewrite <- (map_id (person_counter rows)) at 1.
  apply map_ext_in. intros [p n] Hin. cbn [fst]. f_equal.
  rewrite <- count_of_person_counter. unfold count_of.
  rewrite (assoc_NoDup p n); [reflexivity | | exact Hin].
  rewrite keys_person_counter. apply NoDup_dedup.
Qed.

(** ** [most_common]: a stable sort by decreasing count *)

Lemma insert_by_count_perm x l : Permutation (insert_by_count x l) (x :: l).
Proof.
  induction l as [| y l IH]; [reflexivity |].
  cbn [insert_by_count]. destruct (snd x <? snd y)%nat; [| reflexivity].
  rewrite IH. apply perm_swap.
Qed.

Lemma most_common_perm counter : Permutation (most_common counter) counter.
Proof.
  induction counter as [| x counter IH]; [reflexivity |].
  cbn [most_common fold_right]. rewrite insert_by_count_perm. now constructor.
Qed.

Lemma insert_by_count_sorted x l :
  StronglySorted by_count l -> StronglySorted by_count (insert_by_count x l).
Proof.
  induction 1 as [| y l Hsorted IH Hy].
  - repeat constructor.
  - cbn [insert_by_count]. destruct (snd x <? snd y)%nat eqn:Hlt.
    + apply Nat.ltb_lt in Hlt. constructor; [exact IH |].
      rewrite insert_by_count_perm. constructor; [unfold by_count; lia | exact Hy].
    + apply Nat.ltb_ge in Hlt. constructor; [now constructor |].
      constructor; [exact Hlt |].
      rewrite List.Forall_forall in Hy |- *. intros z Hz.
      specialize (Hy z Hz). unfold by_count in *. lia.
Qed.

Lemma most_common_sorted counter : StronglySorted by_count (most_common counter).
Proof.
  induction counter as [| x counter IH]; [constructor |].
  now apply insert_by_count_sorted.
Qed.

Lemma insert_by_count_class k x l :
  List.filter (fun e => snd e =? k)%nat (insert_by_count x l)
  = List.filter (fun e => snd e =? k)%nat (x :: l).
Proof.
  induction l as [| y l IH]; [reflexivity |].
  cbn [insert_by_count]. destruct (snd x <? snd y)%nat eqn:Hlt; [| reflexivity].
  apply Nat.ltb_lt in Hlt. cbn [List.filter] in IH |- *. rewrite IH.
  destruct (snd x =? k)%nat eqn:Hx, (snd y =? k)%nat eqn:Hy; try reflexivity.
  apply Nat.eqb_eq in Hx, Hy. lia.
Qed.

(** Entries of equal count keep the order they had in the counter. *)
Lemma most_common_stable k counter :
  List.filter (fun e => snd e =? k)%nat (most_common counter)
  = List.filter (fun e => snd e =? k)%nat counter.
Proof.
  induction counter as [| x counter IH]; [reflexivity |].
  cbn [most_common fold_right]. rewrite insert_by_count_class.
  cbn [List.filter]. fold (most_common counter). now rewrite IH.
Qed.

Section Columns.

Variable rows : list row.

Lemma people_closed :
  people rows
  = map fst (most_common (map (fun p => (p, item_count rows p)) (first_seen rows))).
Proof. unfold people. now rewrite person_counter_closed. Qed.

Lemma counted_entries :
  Forall (fun e => snd e = item_count rows (fst e)) (most_common (person_counter rows)).
Proof.
  rewrite most_common_perm, person_counter_closed.
  apply List.Forall_forall. intros e He. apply in_map_iff in He.
  now destruct He as (p & <- & _).
Qed.

Lemma people_perm : Permutation (people rows) (first_seen rows).
Proof.
  unfold people. rewrite most_common_perm, keys_person_counter. reflexivity.
Qed.

Lemma people_sorted :
  StronglySorted (fun p q => item_count rows q <= item_count rows p) (people rows).
Proof.
  unfold people. pose proof counted_entries as Hcounted.
  induction (most_common_sorted (person_counter rows)) as [| e l Hsorted IH He];
    [constructor |].
  inversion Hcounted as [| e' l' Hhead Htail]; subst.
  cbn [map]. constructor; [now apply IH |].
  rewrite List.Forall_forall in He, Htail |- *. intros q Hq.
  apply in_map_iff in Hq. destruct Hq as (e' & <- & Hin).
  rewrite <- Hhead, <- (Htail e' Hin). now apply He.
Qed.

Lemma people_stable k :
  List.filter (fun p => item_count rows p =? k)%nat (people rows)
  = List.filter (fun p => item_count rows p =? k)%nat (first_seen rows).
Proof.
  assert (Hclass : forall l,
             Forall (fun e => snd e = item_count rows (fst e)) l ->
             List.filter (fun p => item_count rows p =? k)%nat (map fst l)
             = map fst (List.filter (fun e : string * nat => snd e =? k)%nat l)).
  { induction 1 as [| e l He _ IH]; [reflexivity |].
    cbn [map List.filter]. rewrite <- He, IH. now destruct (snd e =? k)%nat. }
  unfold people. rewrite (Hclass _ counted_entries), most_common_stable.
  rewrite <- Hclass, keys_person_counter; [reflexivity |].
  rewrite person_counter_closed. apply List.Forall_forall. intros e He.
  apply in_map_iff in He. now destruct He as (p & <- & _).
Qed.

End Columns.

(** ** The groups of the pivot *)

Lemma key_eqb_sym a b : Py.key_eqb a b = Py.key_eqb b a.
Proof.
  destruct a as [| [] | m | s | l | o], b as [| [] | n | t | l' | o'];
    cbn [Py.key_eqb Py.as_int]; try reflexivity; try apply Z.eqb_sym;
    apply String.eqb_sym.
Qed.

Lemma key_eqb_trans a b c :
  Py.key_eqb a b = true -> Py.key_eqb b c = true -> Py.key_eqb a c = true.
Proof.
  destruct a as [| [] | m | s | l | o], b as [| [] | n | t | l' | o'],
           c as [| [] | k | u | l'' | o''];
    cbn [Py.key_eqb Py.as_int]; try discriminate; try reflexivity;
    rewrite ?Z.eqb_eq, ?String.eqb_eq; congruence.
Qed.

Lemma key_eqb_refl k : Py.hashable k = true -> Py.key_eqb k k = true.
Proof.
  destruct k as [| [] | n | s | l | o]; cbn [Py.hashable Py.key_eqb Py.as_int];
    try discriminate; intros _;
    try reflexivity; [apply Z.eqb_refl | apply String.eqb_refl].
Qed.

Lemma for_each_fold {A S : Type} (body : S -> A -> result S) (step : S -> A -> S) xs :
  (forall x, In x xs -> forall s, body s x = Ok (step s x)) ->
  forall s, for_each body xs s = Ok (fold_left step xs s).
Proof.
  induction xs as [| x xs IH]; intros Hbody s; [reflexivity |].
  cbn [for_each fold_left]. rewrite (Hbody x (or_introl eq_refl)). cbn [bind].
  apply IH. intros y Hy. apply Hbody. now right.
Qed.

Lemma for_each_collect {A B : Type} (f : A -> result B) (g : A -> B) xs :
  (forall x, In x xs -> f x = Ok (g x)) ->
  forall acc,
    for_each (fun acc x => do y <- f x; Ok (acc ++ [y])) xs acc = Ok (acc ++ map g xs).
Proof.
  induction xs as [| x xs IH]; intros Hf acc.
  - cbn. now rewrite app_nil_r.
  - cbn [for_each]. rewrite (Hf x (or_introl eq_refl)). cbn [bind].
    rewrite IH; [| intros y Hy; apply Hf; now right].
    cbn [map]. now rewrite <- app_assoc.
Qed.

Lemma row_ok_hashable r : row_ok r = true -> Py.hashable (order_id r) = true.
Proof. unfold row_ok. now intros H%andb_prop. Qed.

Lemma row_ok_date r : row_ok r = true -> exists s, date r = JStr s.
Proof.
  unfold row_ok. intros [_ H]%andb_prop. destruct (date r); try discriminate H. eauto.
Qed.

Lemma by_order_id_fold rows :
  forallb row_ok rows = true ->
  by_order_id rows = Ok (fold_left group_step rows []).
Proof.
  intros Hok. unfold by_order_id. apply for_each_fold. intros r Hr groups.
  rewrite forallb_forall in Hok. now rewrite (row_ok_hashable r (Hok r Hr)).
Qed.

Lemma keys_update_group key f groups :
  map fst (update_group key f groups) = add_key Py.key_eqb key (map fst groups).
Proof.
  unfold add_key. induction groups as [| [k g] groups IH]; [reflexivity |].
  cbn [update_group map fst existsb].
  destruct (Py.key_eqb k key); cbn [orb map fst]; [reflexivity |].
  rewrite IH. now destruct (existsb (fun k' => Py.key_eqb k' key) (map fst groups)).
Qed.

Lemma keys_group_fold rows : forall groups,
  map fst (fold_left group_step rows groups)
  = fold_left (fun ks k => add_key Py.key_eqb k ks) (map order_id rows) (map fst groups).
Proof.
  induction rows as [| r rows IH]; intros groups; [reflexivity |].
  cbn [fold_left map]. rewrite IH. unfold group_step. now rewrite keys_update_group.
Qed.

(** The groups are keyed by the order ids in order of first appearance. *)
Lemma keys_by_order_id rows :
  map fst (fold_left group_step rows []) = orders_seen rows.
Proof.
  rewrite keys_group_fold. apply (keys_from_empty Py.key_eqb key_eqb_trans).
Qed.

Lemma assoc_setitem p q v g :
  assoc p (setitem q v g) = if String.eqb p q then Some v else assoc p g.
Proof.
  induction g as [| [k w] g IH]; cbn [setitem assoc].
  - now destruct (String.eqb p q).
  - destruct (String.eqb q k) eqn:Hqk; cbn [assoc].
    + apply String.eqb_eq in Hqk. subst k. now destruct (String.eqb p q).
    + destruct (String.eqb p k) eqn:Hpk; [| exact IH].
      apply String.eqb_eq in Hpk. subst k.
      now rewrite String.eqb_sym, Hqk.
Qed.

Lemma group_of_equiv a b groups :
  Py.key_eqb a b = true -> group_of a groups = group_of b groups.
Proof.
  intros Hab. induction groups as [| [k g] groups IH]; [reflexivity |].
  cbn [group_of]. rewrite IH.
  destruct (Py.key_eqb k a) eqn:Hka, (Py.key_eqb k b) eqn:Hkb; try reflexivity.
  - now rewrite (key_eqb_trans k a b Hka Hab) in Hkb.
  - rewrite key_eqb_sym in Hab. now rewrite (key_eqb_trans k b a Hkb Hab) in Hka.
Qed.

Lemma group_of_update k key f groups :
  group_of k (update_group key f groups)
  = if Py.key_eqb key k
    then Some (f (match group_of key groups with Some g => g | None => [] end))
    else group_of k groups.
Proof.
  induction groups as [| [k' g] groups IH]; cbn [update_group group_of].
  - reflexivity.
  - destruct (Py.key_eqb k' key) eqn:Hkey; cbn [group_of].
    + destruct (Py.key_eqb key k) eqn:Hk.
      * now rewrite (key_eqb_trans k' key k Hkey Hk).
      * destruct (Py.key_eqb k' k) eqn:Hk'; [| reflexivity].
        rewrite key_eqb_sym in Hkey.
        now rewrite (key_eqb_trans key k' k Hkey Hk') in Hk.
    + rewrite IH. destruct (Py.key_eqb key k) eqn:Hk; [| reflexivity].
      destruct (Py.key_eqb k' k) eqn:Hk'; [| reflexivity].
      rewrite (key_eqb_sym key k) in Hk.
      now rewrite (key_eqb_trans k' k key Hk' Hk) in Hkey.
Qed.

(** The cell of person [p] in the group of order [k] is the cell of the
    last row of that order and person, unless [p] is one of the two keys
    the group holds besides the persons. *)
Lemma group_cells k p rows :
  p <> "date" -> p <> "store" ->
  match group_of k (fold_left group_step rows []) with
  | Some g => assoc p g
  | None => None
  end
  = option_map cell (last_row_of k p rows).
Proof.
  intros Hdate Hstore. unfold last_row_of.
  induction rows as [| r rows IH] using rev_ind; [reflexivity |].
  rewrite fold_left_app, rev_app_distr. cbn [fold_left rev app List.find].
  unfold group_step at 1. rewrite group_of_update.
  destruct (Py.key_eqb (order_id r) k) eqn:Hk; cbn [andb]; [| exact IH].
  rewrite !assoc_setitem, (String.eqb_sym (person r) p).
  destruct (String.eqb p (person r)); [reflexivity |].
  apply String.eqb_neq in Hdate, Hstore. rewrite Hdate, Hstore.
  rewrite (group_of_equiv _ _ _ Hk).
  destruct (group_of k (fold_left group_step rows [])); exact IH.
Qed.

Lemma group_step_ok groups r :
  row_ok r = true ->
  Forall (fun kg => group_ok (snd kg)) groups ->
  Forall (fun kg => group_ok (snd kg)) (group_step groups r).
Proof.
  intros Hr. destruct (row_ok_date r Hr) as [s Hs].
  assert (Hnew : forall g,
             group_ok (setitem (person r) (cell r)
                         (setitem "store" (store r) (setitem "date" (date r) g)))).
  { intros g. unfold group_ok. rewrite !assoc_setitem, Hs. unfold cell.
    generalize (String.eqb "date" (person r)), (String.eqb "store" (person r)).
    intros is_date is_store. cbn. destruct is_date, is_store; eauto. }
  unfold group_step. induction 1 as [| [k g] groups Hg Htail IH]; cbn [update_group].
  - constructor; [apply Hnew | constructor].
  - destruct (Py.key_eqb k (order_id r)); constructor; try assumption. apply Hnew.
Qed.

Lemma groups_ok rows :
  forallb row_ok rows = true ->
  Forall (fun kg => group_ok (snd kg)) (fold_left group_step rows []).
Proof.
  intros Hok. rewrite forallb_forall in Hok.
  induction rows as [| r rows IH] using rev_ind; [constructor |].
  rewrite fold_left_app. cbn [fold_left]. apply group_step_ok.
  - apply Hok, in_or_app. right. now left.
  - apply IH. intros x Hx. apply Hok, in_or_app. now left.
Qed.

Lemma pivot_row_ok ps g : group_ok g -> pivot_row ps g = Ok (pivot_line ps g).
Proof.
  intros [[s Hs] [v Hv]]. unfold pivot_row, pivot_line.
  cbn [Py.getitem]. now rewrite Hs, Hv.
Qed.

(** The pivot of rows that can be exported: the header, and one line per
    group in the order of the groups. *)
Lemma pivot_table_ok rows :
  forallb row_ok rows = true ->
  pivot_table rows
  = Ok (map JStr (["Date"; "Store"] ++ people rows)
        :: map (pivot_line (people rows)) (map snd (fold_left group_step rows []))).
Proof.
  intros Hok. unfold pivot_table. rewrite (by_order_id_fold rows Hok). cbn [bind].
  rewrite (for_each_collect (pivot_row (people rows)) (pivot_line (people rows)));
    [reflexivity |].
  intros g Hg. apply pivot_row_ok.
  apply in_map_iff in Hg. destruct Hg as ([k g'] & <- & Hin).
  pose proof (groups_ok rows Hok) as Hall. rewrite List.Forall_forall in Hall.
  exact (Hall _ Hin).
Qed.

(** ** Relative order *)

Lemma before_cons {A : Type} (a : A) l x y : before l x y -> before (a :: l) x y.
Proof. intros (l1 & l2 & l3 & ->). now exists (a :: l1), l2, l3. Qed.

Lemma before_of_filter {A : Type} (P : A -> bool) l x y :
  before (List.filter P l) x y -> before l x y.
Proof.
  induction l as [| a l IH]; intros (l1 & l2 & l3 & Heq).
  - destruct l1; discriminate Heq.
  - cbn [List.filter] in Heq. destruct (P a).
    + destruct l1 as [| b l1]; cbn [app] in Heq; injection Heq as -> Heq.
      * assert (Hy : In y l).
        { apply (proj1 (filter_In P y l)). rewrite Heq. apply in_elt. }
        apply in_split in Hy. destruct Hy as (m1 & m2 & ->).
        now exists [], m1, m2.
      * apply before_cons, IH. now exists l1, l2, l3.
    + apply before_cons, IH. now exists l1, l2, l3.
Qed.

Lemma before_in_filter {A : Type} (P : A -> bool) l x y :
  before l x y -> P x = true -> P y = true -> before (List.filter P l) x y.
Proof.
  intros (l1 & l2 & l3 & ->) Hx Hy.
  exists (List.filter P l1), (List.filter P l2), (List.filter P l3).
  rewrite List.filter_app. cbn [List.filter]. rewrite Hx, List.filter_app. cbn [List.filter].
  now rewrite Hy.
Qed.

Lemma StronglySorted_before {A : Type} (R : A -> A -> Prop) l x y :
  StronglySorted R l -> before l x y -> R x y.
Proof.
  intros Hsorted (l1 & l2 & l3 & ->).
  induction l1 as [| a l1 IH]; cbn [app] in Hsorted; inversion Hsorted as [| ? ? Htail Hhead];
    subst; [| now apply IH].
  rewrite List.Forall_forall in Hhead. apply Hhead, in_elt.
Qed.

Lemma StronglySorted_filter {A : Type} (R : A -> A -> Prop) (P : A -> bool) l :
  StronglySorted R l -> StronglySorted R (List.filter P l).
Proof.
  induction 1 as [| a l Hsorted IH Ha]; [constructor |].
  cbn [List.filter]. destruct (P a); [| exact IH].
  constructor; [exact IH |]. rewrite List.Forall_forall in Ha |- *.
  intros z Hz. apply Ha. now apply filter_In in Hz.
Qed.

Lemma distinct_dedup l : distinct_keys (dedup Py.key_eqb l).
Proof.
  unfold distinct_keys. induction l as [| k l IH]; cbn [dedup]; constructor.
  - now apply StronglySorted_filter.
  - apply List.Forall_forall. intros y Hy. apply filter_In in Hy.
    now destruct Hy as [_ Hy%negb_true_iff].
Qed.

Lemma In_dedup {K : Type} (eqb : K -> K -> bool) x l : In x (dedup eqb l) -> In x l.
Proof.
  induction l as [| k l IH]; [easy |].
  cbn [dedup]. intros [-> | Hin]; [now left |].
  right. apply IH. now apply filter_In in Hin.
Qed.

Lemma group_of_entry k g groups :
  distinct_keys (map fst groups) -> In (k, g) groups -> Py.key_eqb k k = true ->
  group_of k groups = Some g.
Proof.
  unfold distinct_keys. intros Hdistinct Hin Hrefl.
  induction groups as [| [k' g'] groups IH]; [destruct Hin |].
  cbn [map fst] in Hdistinct. inversion Hdistinct as [| ? ? Htail Hhead]; subst.
  cbn [group_of]. destruct Hin as [Heq | Hin].
  - injection Heq as -> ->. now rewrite Hrefl.
  - rewrite List.Forall_forall in Hhead.
    rewrite (Hhead k); [now apply IH |].
    apply in_map_iff. now exists (k, g).
Qed.

(** Every group of exportable rows is the one [by_order_id] gives back
    for its key. *)
Lemma group_of_fold rows k g :
  forallb row_ok rows = true ->
  In (k, g) (fold_left group_step rows []) ->
  group_of k (fold_left group_step rows []) = Some g.
Proof.
  intros Hok Hin. apply group_of_entry; [| exact Hin |].
  - rewrite keys_by_order_id. apply distinct_dedup.
  - assert (Hk : In k (orders_seen rows)).
    { rewrite <- keys_by_order_id. apply in_map_iff. now exists (k, g). }
    apply In_dedup, in_map_iff in Hk. destruct Hk as (r & <- & Hr).
    rewrite forallb_forall in Hok. apply key_eqb_refl, row_ok_hashable, Hok, Hr.
Qed.

(** ** The pivot table *)

(** C8.  The person columns are the persons of the rows, sorted by
    decreasing number of rows; persons with the same number keep the order
    of their first appearance; so the columns depend on the rows only
    through the counts and the order of first appearance.  The lines of the
    table are the groups of [by_order_id], one per order id, in the order
    in which the order ids first appear. *)
Theorem pivot_order (rows : list row) :
  let n := item_count rows in
  let ps := people rows in
  Permutation ps (first_seen rows)
  /\ (forall p q, before ps p q -> n q <= n p)
  /\ (forall p q, before ps p q -> n p = n q -> before (first_seen rows) p q)
  /\ (forall rows',
        first_seen rows' = first_seen rows ->
        (forall p, item_count rows' p = n p) ->
        people rows' = ps)
  /\ (forallb row_ok rows = true ->
      exists groups,
        by_order_id rows = Ok groups
        /\ map fst groups = orders_seen rows
        /\ pivot_table rows
           = Ok (map JStr ("Date" :: "Store" :: ps)
                 :: map (fun kg => pivot_line ps (snd kg)) groups)).
Proof.
  intros n ps. split; [apply people_perm |]. split; [| split; [| split]].
  - intros p q Hpq.
    exact (StronglySorted_before _ _ p q (people_sorted rows) Hpq).
  - intros p q Hpq Htie.
    apply (before_of_filter (fun x => n x =? n p)%nat).
    subst n ps. rewrite <- people_stable.
    apply before_in_filter; [exact Hpq | apply Nat.eqb_refl |].
    apply Nat.eqb_eq. now symmetry.
  - intros rows' Hseen Hcount. subst ps n. rewrite !people_closed, Hseen.
    do 2 f_equal. apply map_ext. intros p. now rewrite Hcount.
  - intros Hok. exists (fold_left group_step rows []).
    split; [now apply by_order_id_fold |]. split; [apply keys_by_order_id |].
    rewrite (pivot_table_ok rows Hok). now rewrite map_map.
Qed.

Lemma pivot_order_witness :
  exists groups,
    by_order_id group_rows = Ok groups /\ map fst groups = [JStr "u-1"].
Proof.
  destruct (proj2 (proj2 (proj2 (proj2 (pivot_order group_rows)))) eq_refl)
    as (groups & Hgroups & Hkeys & _).
  exists groups. split; [exact Hgroups | exact Hkeys].
Defined.

(** C9 (counterexample).  In the pivot of the group order the cell of Amy,
    who has a taco without extras, is [Taco. ] with the space of the
    separator, not [Taco.]. *)
Lemma taco_cell_keeps_separator :
  (do rows <- order_rows [] group_cart; pivot_table rows)
  = Ok [ map JStr ["Date"; "Store"; "Amy"; "Bo"];
         map JStr ["2023-05-01"; "Taqueria"; "Taco. "; "Burrito. Protein: Steak"] ]
  /\ JStr "Taco. " <> JStr "Taco.".
Proof. split; [reflexivity | discriminate]. Qed.

(** A person called [date] shares a key with the date of the group: the
    cell shows the timestamp of the order, not the person's item. *)
Lemma person_named_date_cell :
  pivot_table rows_with_date_person
  = Ok [ map JStr ["Date"; "Store"; "date"; "Bo"];
         map JStr ["2023-06-02"; "Taqueria"; "2023-06-02T18:30:00Z"; "Burrito. "] ].
Proof. reflexivity. Qed.

(** C9 (as amended).  In the pivot of rows that can be exported, the line of
    an order holds, in the column of a person not called [date] or [store],
    the item, a dot, a space and the options summary of that person's last
    row in the order, and the empty string when the person has no row in
    the order; for the group order Amy's cell is [Taco. ] and Bo's is
    [Burrito. Protein: Steak]. *)
Theorem last_item_wins (rows : list row) :
  forallb row_ok rows = true ->
  let ps := people rows in
  (exists groups,
      by_order_id rows = Ok groups
      /\ pivot_table rows
         = Ok (map JStr ("Date" :: "Store" :: ps)
               :: map (fun kg => pivot_line ps (snd kg)) groups)
      /\ forall k g i p,
          In (k, g) groups ->
          nth_error ps i = Some p -> p <> "date" -> p <> "store" ->
          nth_error (pivot_line ps g) (2 + i)
          = Some (match last_row_of k p rows with
                  | Some r => JStr (Py.str (item r) +:+ ". " +:+ options r)
                  | None => JStr ""
                  end))
  /\ (do rows <- order_rows [] group_cart; pivot_table rows)
     = Ok [ map JStr ["Date"; "Store"; "Amy"; "Bo"];
            map JStr ["2023-05-01"; "Taqueria"; "Taco. "; "Burrito. Protein: Steak"] ].
Proof.
  intros Hok ps. split; [| reflexivity].
  exists (fold_left group_step rows []).
  split; [now apply by_order_id_fold |]. split.
  - rewrite (pivot_table_ok rows Hok). now rewrite map_map.
  - intros k g i p Hin Hp Hdate Hstore.
    unfold pivot_line. cbn [Nat.add app nth_error].
    rewrite nth_error_map, Hp. cbn [option_map]. f_equal.
    pose proof (group_cells k p rows Hdate Hstore) as Hcell.
    rewrite (group_of_fold rows k g Hok Hin) in Hcell.
    unfold get_cell. rewrite Hcell.
    now destruct (last_row_of k p rows).
Qed.

Lemma last_item_wins_witness :
  exists groups,
    by_order_id group_rows = Ok groups
    /\ forall k g, In (k, g) groups ->
                   nth_error (pivot_line (people group_rows) g) 3
                   = Some (match last_row_of k "Bo" group_rows with
                           | Some r => JStr (Py.str (item r) +:+ ". " +:+ options r)
                           | None => JStr ""
                           end).
Proof.
  destruct (proj1 (last_item_wins group_rows eq_refl)) as (groups & Hgroups & _ & Hcells).
  exists groups. split; [exact Hgroups |].
  intros k g Hin. apply (Hcells k g 1 "Bo" Hin); [reflexivity | discriminate | discriminate].
Defined.

(** ** The whole run *)

Lemma itemized_table_ok rows :
  forallb row_ok rows = true ->
  itemized_table rows
  = Ok (map JStr ["Date"; "Store"; "Person"; "Item"; "Options"]
        :: map itemized_line rows).
Proof.
  intros Hok. rewrite forallb_forall in Hok. unfold itemized_table.
  assert (Hbody : forall body,
             for_each
               (fun body r =>
                  do day <- Py.slice10 (date r);
                  Ok (body ++ [[day; store r; JStr (person r); item r; JStr (options r)]]))
               rows body
             = Ok (body ++ map itemized_line rows)).
  { induction rows as [| r rows IH]; intros body.
    - cbn. now rewrite app_nil_r.
    - destruct (row_ok_date r (Hok r (or_introl eq_refl))) as [s Hs].
      cbn [for_each map]. rewrite Hs. cbn [Py.slice10 bind].
      rewrite IH; [| intros x Hx; apply Hok; now right].
      unfold itemized_line at 2. rewrite Hs. now rewrite <- app_assoc. }
  now rewrite Hbody.
Qed.

Lemma flat_rows_ok ss : forallb row_ok (flat_map flat_rows ss) = true.
Proof.
  apply forallb_forall. intros r Hr.
  apply in_flat_map in Hr. destruct Hr as (s & _ & Hr).
  unfold flat_rows in Hr. apply in_flat_map in Hr. destruct Hr as (so & _ & Hr).
  apply in_map_iff in Hr. destruct Hr as (it & <- & _).
  unfold row_ok, flat_row, summary_order_id. cbn [order_id date].
  destruct (orderUuid s) as [u |]; [destruct (String.eqb u "") |];
    try reflexivity; now destruct (numericId s).
Qed.

(** X15.  Over valid pages the first of which to be empty is page [n], and
    whose summaries are well shaped, a run with budget for more than [n]
    pages finishes, and writes the tables of the rows of the typed
    summaries. *)
Theorem execute_finishes
  (fetch_orders : nat -> nat -> result json) (d : disk) (pages : nat -> list json)
  (n : nat) (ss : list OrderSummary) (budget : nat) :
  valid_pages fetch_orders d pages ->
  pages n = [] -> (forall m, m < n -> pages m <> []) ->
  Forall2 is_summary (flat_map pages (seq 0 n)) ss ->
  n < budget ->
  let rows := flat_map flat_rows ss in
  execute fetch_orders budget d
  = Finished
      (map JStr ["Date"; "Store"; "Person"; "Item"; "Options"] :: map itemized_line rows)
      (map JStr (["Date"; "Store"] ++ people rows)
       :: map (pivot_line (people rows)) (map snd (fold_left group_step rows []))).
Proof.
  intros Hvalid Hempty Hfirst Hshaped Hbudget rows.
  pose proof (run_valid_pages fetch_orders d pages Hvalid budget 0 d) as Hrun.
  specialize (Hrun ltac:(now intros m _)). cbn zeta in Hrun.
  change (fetch_all_orders_from fetch_orders budget d (0 * limit))
    with (fetch_all_orders fetch_orders budget d) in Hrun.
  pose proof (valid_run_reaches d pages budget 0 n ltac:(lia) Hempty) as Hst.
  destruct (valid_run d pages budget 0) as [tr st] eqn:Hvr. cbn [snd] in Hst. subst st.
  destruct (valid_run_returned d pages budget 0 tr Hvr)
    as (n' & Hn' & Hempty' & Hfirst' & Htr).
  assert (n' = n) as ->.
  { destruct (Nat.lt_trichotomy n' n) as [Hlt | [Heq | Hgt]]; [| exact Heq |].
    - now destruct (Hfirst n' Hlt).
    - now destruct (Hfirst' n ltac:(lia)). }
  injection Hrun as Htrace Hstatus. unfold execute.
  rewrite Htrace, Hstatus, Htr, Nat.sub_0_r.
  rewrite yielded_app, yielded_pages, yielded_fetch_events, app_nil_r.
  rewrite (all_order_rows_shaped _ ss [] Hshaped). cbn [app]. fold rows.
  now rewrite (itemized_table_ok rows (flat_rows_ok ss)),
              (pivot_table_ok rows (flat_rows_ok ss)).
Qed.

(** The sample API, run from an empty directory. *)
Example execute_group_order :
  execute one_page_api 2 ∅
  = Finished
      [ map JStr ["Date"; "Store"; "Person"; "Item"; "Options"];
        map JStr ["2023-05-01"; "Taqueria"; "Amy"; "Taco"; ""];
        map JStr ["2023-05-01"; "Taqueria"; "Bo"; "Burrito"; "Protein: Steak"] ]
      [ map JStr ["Date"; "Store"; "Amy"; "Bo"];
        map JStr ["2023-05-01"; "Taqueria"; "Taco. "; "Burrito. Protein: Steak"] ].
Proof. vm_compute. reflexivity. Qed.

(** * Further properties *)

(** ** Credentials and requests *)

Lemma no_semicolon_in_prefix s :
  Py.substring_of ";" ("sessionid=" +:+ s) = Py.substring_of ";" s.
Proof. reflexivity. Qed.

Lemma session_cookie_str s v :
  Http.session_cookie {| sessionid := JStr s; verbose := v |}
  = Ok (JStr (if Py.substring_of ";" s then s else "sessionid=" +:+ s)).
Proof.
  unfold Http.session_cookie. cbn [sessionid Py.contains bind Py.str].
  now destruct (Py.substring_of ";" s).
Qed.

(** X1.  Two scrapers whose session ids are different strings send
    different cookies, whether the ids are bare tokens or full cookie
    strings. *)
Theorem session_cookie_inj (a b : string) (v w : bool) :
  a <> b ->
  Http.session_cookie {| sessionid := JStr a; verbose := v |}
  <> Http.session_cookie {| sessionid := JStr b; verbose := w |}.
Proof.
  intros Hab. rewrite !session_cookie_str. intros H. injection H as H. apply Hab.
  destruct (Py.substring_of ";" a) eqn:Ha, (Py.substring_of ";" b) eqn:Hb.
  - exact H.
  - subst a. rewrite no_semicolon_in_prefix, Hb in Ha. discriminate Ha.
  - subst b. rewrite no_semicolon_in_prefix, Ha in Hb. discriminate Hb.
  - now apply String.app_inj in H.
Qed.

Lemma session_cookie_inj_witness :
  Http.session_cookie {| sessionid := JStr "abc123"; verbose := false |}
  <> Http.session_cookie {| sessionid := JStr "sessionid=abc123"; verbose := false |}.
Proof. apply (session_cookie_inj "abc123" "sessionid=abc123" false false). discriminate. Defined.

(** X2.  The constructor refuses a session id that is null or empty with
    [TypeError]; a scraper it builds from a string has a cookie, which is a
    non-empty string and never the bare prefix [sessionid=]. *)
Theorem init_guards_cookie (s : string) (v : bool) :
  Http.init JNull v = Raise TypeError
  /\ Http.init (JStr "") v = Raise TypeError
  /\ (s <> "" ->
      exists self cookie,
        Http.init (JStr s) v = Ok self
        /\ Http.session_cookie self = Ok (JStr cookie)
        /\ cookie <> "" /\ cookie <> "sessionid=").
Proof.
  split; [reflexivity |]. split; [reflexivity |]. intros Hs.
  exists {| sessionid := JStr s; verbose := v |},
         (if Py.substring_of ";" s then s else "sessionid=" +:+ s).
  split.
  - unfold Http.init. cbn [Py.truthy]. apply String.eqb_neq in Hs. now rewrite Hs.
  - split; [apply session_cookie_str |].
    destruct (Py.substring_of ";" s) eqn:Hfull;
      [split; [exact Hs |] | split; [discriminate |]].
    + intros ->. discriminate Hfull.
    + intros H. change "sessionid=" with ("sessionid=" +:+ "") in H at 2.
      apply String.app_inj in H. now apply Hs.
Qed.

Lemma init_guards_cookie_witness :
  exists self cookie,
    Http.init (JStr "abc123") true = Ok self
    /\ Http.session_cookie self = Ok (JStr cookie)
    /\ cookie <> "" /\ cookie <> "sessionid=".
Proof. apply (proj2 (proj2 (init_guards_cookie "abc123" true))). discriminate. Defined.

(** X3.  [fetch_orders] of a scraper whose session id is a string sends
    exactly one POST, to the GraphQL endpoint, with the scraper's cookie and
    with the page parameters in the variables of the body, so that requests
    for two different pages differ; its result is the decoded text, or the
    exception of the transport or of the decoder.  A scraper whose session
    id is a number sends nothing: the cookie cannot be built and every fetch
    raises [TypeError]. *)
Theorem fetch_orders_request
  (post : request -> result string) (loads : string -> result json)
  (s : string) (v : bool) (l o : nat) :
  let self := {| sessionid := JStr s; verbose := v |} in
  (exists req cookie,
      Http.session_cookie self = Ok cookie
      /\ Http.fetch_orders post loads self l o = ([req], do text <- post req; loads text)
      /\ url req = GRAPHQL_URL
      /\ assoc "cookie" (headers req) = Some cookie
      /\ (do vars <- Py.getitem (json_body req) "variables"; Py.getitem vars "limit")
         = Ok (JInt (Z.of_nat l))
      /\ (do vars <- Py.getitem (json_body req) "variables"; Py.getitem vars "offset")
         = Ok (JInt (Z.of_nat o))
      /\ forall l' o', Http.orders_request self l' o' = Ok req -> l' = l /\ o' = o)
  /\ forall n w,
      Http.fetch_orders post loads {| sessionid := JInt n; verbose := w |} l o
      = ([], Raise TypeError).
Proof.
  intros self. split; [| reflexivity].
  pose proof (session_cookie_str s v) as Hcookie. fold self in Hcookie.
  unfold Http.fetch_orders, Http.orders_request. rewrite Hcookie. cbn [bind].
  eexists. eexists. split; [reflexivity |].
  split; [reflexivity |]. split; [reflexivity |]. split; [reflexivity |].
  split; [reflexivity |]. split; [reflexivity |].
  intros l' o' H. injection H as Hl Ho.
  split; now apply Nat2Z.inj.
Qed.

(** ** Cache keys and files *)

Lemma digits_of_uint d : all_digits (NilEmpty.string_of_uint d) = true.
Proof. induction d; cbn [NilEmpty.string_of_uint all_digits]; try reflexivity; exact IHd. Qed.

Lemma decimal_digits n : all_digits (decimal n) = true.
Proof.
  unfold decimal, NilZero.string_of_uint.
  destruct (Nat.to_uint n) eqn:E; try (rewrite <- E; apply digits_of_uint).
  reflexivity.
Qed.

Lemma digits_split s : forall s' t t',
  all_digits s = true -> all_digits s' = true ->
  s +:+ String "-" t = s' +:+ String "-" t' -> s = s' /\ t = t'.
Proof.
  induction s as [| c s IH]; intros [| c' s'] t t' Hs Hs' Heq; cbn [String.append] in Heq.
  - injection Heq as ->. now split.
  - injection Heq as <- _. discriminate Hs'.
  - injection Heq as -> _. discriminate Hs.
  - injection Heq as -> Heq. cbn [all_digits] in Hs, Hs'.
    apply andb_prop in Hs, Hs'.
    destruct (IH s' t t' (proj2 Hs) (proj2 Hs') Heq) as [-> ->]. now split.
Qed.

(** The file name is a key: two pages share a file only when they have the
    same limit and the same offset. *)
Lemma orders_filename_key l o l' o' :
  orders_filename l o = orders_filename l' o' -> l = l' /\ o = o'.
Proof.
  unfold orders_filename. intros H. apply String.app_inj in H.
  change "-offset-" with (String "-" "offset-") in H. cbn [String.append] in H.
  apply digits_split in H; try apply decimal_digits. destruct H as [Hl Ho].
  injection Ho as Ho.
  split; apply decimal_inj; [exact Hl | now apply (append_inv_tail _ _ ".json")].
Qed.

Lemma receipt_is_no_page order_id l o : receipt_filename order_id <> orders_filename l o.
Proof. unfold receipt_filename, orders_filename. cbn [String.append]. discriminate. Qed.

(** A call leaves the directory as it is or stores one page under the
    file name of its key, and its result depends on that file alone. *)
Lemma persisted_disk (fetch_orders : nat -> nat -> result json) d l o :
  snd (fst (fetch_orders_persisted fetch_orders d l o)) = d
  \/ exists data,
      snd (fst (fetch_orders_persisted fetch_orders d l o))
      = <[orders_filename l o := Stored data]> d.
Proof.
  unfold fetch_orders_persisted.
  destruct (d !! orders_filename l o) as [[stored | w | w] |]; [now left | ..];
    (destruct (fetch_orders l o) as [data | e]; [| now left]);
    (destruct (can_write _); [right; now exists data | now left]).
Qed.

Lemma persisted_result (fetch_orders : nat -> nat -> result json) d d' l o :
  d' !! orders_filename l o = d !! orders_filename l o ->
  snd (fetch_orders_persisted fetch_orders d' l o)
  = snd (fetch_orders_persisted fetch_orders d l o).
Proof.
  intros H. unfold fetch_orders_persisted. rewrite H.
  destruct (d !! orders_filename l o) as [[stored | w | w] |]; [reflexivity | ..];
    (destruct (fetch_orders l o); [| reflexivity]); now destruct (can_write _).
Qed.

Lemma receipt_disk (fetch_receipt : json -> result json) d order_id :
  snd (fst (fetch_receipt_persisted fetch_receipt d order_id)) = d
  \/ exists data,
      snd (fst (fetch_receipt_persisted fetch_receipt d order_id))
      = <[receipt_filename order_id := Stored data]> d.
Proof.
  unfold fetch_receipt_persisted.
  destruct (d !! receipt_filename order_id) as [[stored | w | w] |]; [now left | ..];
    (destruct (fetch_receipt order_id) as [data | e]; [| now left]);
    (destruct (can_write _); [right; now exists data | now left]).
Qed.

Lemma receipt_result (fetch_receipt : json -> result json) d d' order_id :
  d' !! receipt_filename order_id = d !! receipt_filename order_id ->
  snd (fetch_receipt_persisted fetch_receipt d' order_id)
  = snd (fetch_receipt_persisted fetch_receipt d order_id).
Proof.
  intros H. unfold fetch_receipt_persisted. rewrite H.
  destruct (d !! receipt_filename order_id) as [[stored | w | w] |]; [reflexivity | ..];
    (destruct (fetch_receipt order_id); [| reflexivity]); now destruct (can_write _).
Qed.


Section CacheIsolation.

Variable fetch_orders : nat -> nat -> result json.
Variable fetch_receipt : json -> result json.

(** X4.  What is stored for one page never changes what another page
    gets: after a call for [(l, o)] the file of a different key
    [(l', o')] is as before, and so is the result of a call for it. *)
Theorem cached_pages_do_not_collide (d : disk) (l o l' o' : nat) :
  l <> l' \/ o <> o' ->
  let after := snd (fst (fetch_orders_persisted fetch_orders d l o)) in
  after !! orders_filename l' o' = d !! orders_filename l' o'
  /\ snd (fetch_orders_persisted fetch_orders after l' o')
     = snd (fetch_orders_persisted fetch_orders d l' o').
Proof.
  intros Hne after.
  assert (Hfile : after !! orders_filename l' o' = d !! orders_filename l' o').
  { subst after.
    destruct (persisted_disk fetch_orders d l o) as [-> | [data ->]]; [reflexivity |].
    apply lookup_insert_ne; intros E; apply orders_filename_key in E.
    destruct E, Hne; congruence. }
  split; [exact Hfile | now apply persisted_result].
Qed.


(** X6.  Receipts and pages never share a file: fetching a receipt does not
    change the result of any page fetch, and fetching a page does not
    change the result of any receipt fetch. *)
Theorem receipts_and_pages_isolated (d : disk) (order_id : json) (l o : nat) :
  snd (fetch_orders_persisted fetch_orders
         (snd (fst (fetch_receipt_persisted fetch_receipt d order_id))) l o)
  = snd (fetch_orders_persisted fetch_orders d l o)
  /\ snd (fetch_receipt_persisted fetch_receipt
            (snd (fst (fetch_orders_persisted fetch_orders d l o))) order_id)
     = snd (fetch_receipt_persisted fetch_receipt d order_id).
Proof.
  pose proof (receipt_is_no_page order_id l o) as Hne. split.
  - apply persisted_result.
    destruct (receipt_disk fetch_receipt d order_id) as [-> | [data ->]]; [reflexivity |].
    now apply lookup_insert_ne.
  - apply receipt_result.
    destruct (persisted_disk fetch_orders d l o) as [-> | [data ->]]; [reflexivity |].
    apply lookup_insert_ne. congruence.
Qed.

(** X7.  A fetch that fails is not cached: on a miss, when [fetch_orders]
    raises, the exception leaves [fetch_orders_persisted] and the generator
    as it is, and the directory is unchanged. *)
Theorem failed_fetch_is_not_cached (d : disk) (offset budget : nat) (e : exn) :
  cache_miss d (orders_filename limit offset) ->
  fetch_orders limit offset = Raise e ->
  fetch_orders_persisted fetch_orders d limit offset
  = ([ReadCache limit offset; Request limit offset], d, Raise e)
  /\ fetch_all_orders_from fetch_orders (S budget) d offset
     = ([ReadCache limit offset; Request limit offset], d, Raised e).
Proof.
  intros Hmiss Hfetch.
  assert (Hcall : fetch_orders_persisted fetch_orders d limit offset
                  = ([ReadCache limit offset; Request limit offset], d, Raise e)).
  { rewrite (persisted_miss _ _ _ _ Hmiss). now rewrite Hfetch. }
  split; [exact Hcall |]. cbn [fetch_all_orders_from]. now rewrite Hcall.
Qed.

End CacheIsolation.


Lemma cached_pages_do_not_collide_witness :
  snd (fetch_orders_persisted one_page_api
         (snd (fst (fetch_orders_persisted one_page_api ∅ 20 0))) 20 20)
  = snd (fetch_orders_persisted one_page_api ∅ 20 20).
Proof.
  assert (Hne : 20 <> 20 \/ 0 <> 20) by (right; discriminate).
  pose proof (cached_pages_do_not_collide one_page_api ∅ 20 0 20 20 Hne) as H.
  cbv zeta in H. exact (proj2 H).
Defined.


Lemma failed_fetch_is_not_cached_witness :
  fetch_all_orders_from api_down 1 ∅ 0
  = ([ReadCache 20 0; Request 20 0], ∅, Raised (TransportError "connection refused")).
Proof.
  apply (proj2 (failed_fetch_is_not_cached api_down ∅ 0 0
                  (TransportError "connection refused")
                  (or_introl (lookup_empty _)) eq_refl)).
Defined.


(** ** Validation of any response *)

(** X9.  A response with an [errors] key is never taken as data: whatever
    the key holds and whatever else the response carries, orders included,
    the validation raises. *)
Theorem errors_key_always_raises (o : list (string * json)) (errors : json) :
  assoc "errors" o = Some errors ->
  exists e, check_page (JObj o) = Raise e.
Proof.
  intros Herr. rewrite (check_page_errors o errors Herr).
  destruct (if Py.truthy errors
            then do first <- Py.getindex errors 0; Py.getitem first "message"
            else Ok (JStr "Unknown error")) as [msg | e]; cbn [bind]; [| eauto].
  destruct (Py.contains ORDERS_FIELD msg) as [[] | e]; cbn [bind]; eauto.
  destruct (Py.contains "ordersHistory" msg) as [[] | e]; cbn [bind]; eauto.
Qed.

Lemma errors_key_always_raises_witness : exists e, check_page partial_page = Raise e.
Proof.
  apply (errors_key_always_raises
           [("errors", JArr [JObj [("message", JStr "timeout")]]);
            ("data", JObj [(ORDERS_FIELD, JArr [group_cart])])]
           (JArr [JObj [("message", JStr "timeout")]])).
  reflexivity.
Defined.

Lemma iter_truthy_nonempty field l :
  Py.truthy field = true -> Py.iter field = Ok l -> l <> [].
Proof.
  destruct field as [| b | n | s | items | fields]; cbn [Py.iter Py.truthy];
    try discriminate; intros Ht Hi; injection Hi as <-.
  - destruct s; [discriminate Ht | discriminate].
  - destruct items; [discriminate Ht | discriminate].
  - destruct fields; [discriminate Ht | discriminate].
Qed.

(** X10.  The only responses that pass the validation are objects without
    an [errors] key whose [data] is an object holding a non-null field; the
    loop then breaks when the field is falsy, and otherwise yields the
    elements of the field, of which there is at least one: no batch that is
    yielded is empty. *)
Theorem accepted_pages (data : json) (r : option (list json)) :
  check_page data = Ok r ->
  exists o payload field,
    data = JObj o /\ assoc "errors" o = None
    /\ assoc "data" o = Some (JObj payload)
    /\ assoc ORDERS_FIELD payload = Some field /\ field <> JNull
    /\ match r with
       | None => Py.truthy field = false
       | Some l => Py.truthy field = true /\ Py.iter field = Ok l /\ l <> []
       end.
Proof.
  intros Hcheck.
  destruct data as [| b | n | s | items | o]; try discriminate Hcheck.
  - unfold check_page in Hcheck. cbn [Py.contains bind Py.getitem keys] in Hcheck.
    destruct (Py.substring_of "errors" s); [discriminate Hcheck |].
    destruct (Py.substring_of "data" s); discriminate Hcheck.
  - unfold check_page in Hcheck. cbn [Py.contains bind Py.getitem keys] in Hcheck.
    destruct (existsb _ items); [discriminate Hcheck |].
    destruct (existsb _ items); discriminate Hcheck.
  - destruct (assoc "errors" o) as [errors |] eqn:Herr.
    + destruct (errors_key_always_raises o errors Herr) as [e He].
      rewrite He in Hcheck. discriminate Hcheck.
    + rewrite (check_page_no_errors o Herr) in Hcheck.
      destruct (assoc "data" o) as [payload |] eqn:Hdata; [| discriminate Hcheck].
      destruct payload as [| b | n | s | items | payload]; try discriminate Hcheck.
      cbn [Py.get bind] in Hcheck.
      exists o, payload. destruct (assoc ORDERS_FIELD payload) as [field |] eqn:Hfield;
        [| discriminate Hcheck].
      exists field. split; [reflexivity |]. split; [exact Herr |].
      split; [exact Hdata |]. split; [reflexivity |].
      assert (Hnull : field <> JNull) by (intros ->; discriminate Hcheck).
      split; [exact Hnull |].
      assert (Hbody : (if negb (Py.truthy field) then Ok None
                       else do summaries <- Py.iter field; Ok (Some summaries))
                      = Ok r).
      { destruct field; try exact Hcheck. now destruct Hnull. }
      destruct (Py.truthy field) eqn:Ht; cbn [negb] in Hbody.
      * destruct (Py.iter field) as [l | e] eqn:Hiter; [| discriminate Hbody].
        injection Hbody as <-. repeat split.
        now apply (iter_truthy_nonempty field).
      * now injection Hbody as <-.
Qed.

Lemma accepted_pages_witness :
  exists o payload field,
    page_of [group_cart] = JObj o /\ assoc "errors" o = None
    /\ assoc "data" o = Some (JObj payload)
    /\ assoc ORDERS_FIELD payload = Some field /\ field <> JNull
    /\ Py.truthy field = true /\ Py.iter field = Ok [group_cart] /\ [group_cart] <> [].
Proof. apply (accepted_pages (page_of [group_cart]) (Some [group_cart])). reflexivity. Defined.

(** ** The offsets of a run *)

Lemma reads_app tr1 tr2 : reads (tr1 ++ tr2) = reads tr1 ++ reads tr2.
Proof.
  induction tr1 as [| e tr1 IH]; [reflexivity |].
  destruct e; cbn [reads app]; now rewrite IH.
Qed.

Lemma reads_yields l : reads (map Yield l) = [].
Proof. induction l as [| x l IH]; [reflexivity | exact IH]. Qed.

Lemma persisted_events fetch_orders d l o :
  exists again : bool,
    fst (fst (fetch_orders_persisted fetch_orders d l o))
    = ReadCache l o :: (if again then [Request l o] else []).
Proof.
  unfold fetch_orders_persisted.
  destruct (d !! orders_filename l o) as [[stored | w | w] |];
    [exists false; reflexivity
    | exists true; destruct (fetch_orders l o); [now destruct (can_write _) | reflexivity] ..].
Qed.

Lemma reads_io l o (again : bool) :
  reads (ReadCache l o :: (if again then [Request l o] else [])) = [(l, o)].
Proof. now destruct again. Qed.

(** The lookups of a run. *)
Lemma run_reads (fetch_orders : nat -> nat -> result json) budget : forall d offset,
  let run := fetch_all_orders_from fetch_orders budget d offset in
  exists m,
    m <= budget
    /\ reads (trace_of run) = map (fun i => (limit, offset + i * limit)) (seq 0 m)
    /\ (status_of run = Suspended -> m = budget).
Proof.
  induction budget as [| budget IH]; intros d offset run.
  - exists 0. subst run. cbn. repeat split; lia.
  - subst run. cbn [fetch_all_orders_from].
    destruct (persisted_events fetch_orders d limit offset) as [again Hio].
    destruct (fetch_orders_persisted fetch_orders d limit offset) as [[io d1] fetched].
    cbn [fst] in Hio. subst io.
    assert (Hstop : forall d' st,
               st <> Suspended ->
               let run := (ReadCache limit offset
                           :: (if again then [Request limit offset] else []), d', st) in
               exists m,
                 m <= S budget
                 /\ reads (trace_of run)
                    = map (fun i => (limit, offset + i * limit)) (seq 0 m)
                 /\ (status_of run = Suspended -> m = S budget)).
    { intros d' st Hst run. exists 1. subst run. unfold trace_of, status_of. cbn [fst snd].
      split; [lia |]. split.
      - rewrite reads_io. cbn. now rewrite Nat.add_0_r.
      - intros H. now destruct Hst. }
    destruct fetched as [[data was_persisted] | e]; [| now apply Hstop].
    destruct (check_page data) as [[summaries |] | e]; [| now apply Hstop ..].
    specialize (IH d1 (offset + limit)). cbn zeta in IH.
    destruct (fetch_all_orders_from fetch_orders budget d1 (offset + limit))
      as [[rest d2] st].
    destruct IH as (m & Hm & Hreads & Hst).
    unfold trace_of, status_of in *. cbn [fst snd] in *.
    exists (S m). split; [lia |]. split.
    + rewrite !reads_app, reads_io, reads_yields, Hreads.
      replace (reads (if was_persisted then [] else [Sleep])) with (@nil (nat * nat))
        by now destruct was_persisted.
      cbn [app seq map]. rewrite Nat.add_0_r. f_equal.
      rewrite <- seq_shift, map_map. apply map_ext. intros i. f_equal.
      cbn [Nat.mul]. lia.
    + intros H. f_equal. now apply Hst.
Qed.

Lemma requests_follow_weaken prev tr : requests_follow None tr -> requests_follow prev tr.
Proof.
  destruct tr as [| e tr]; [easy |]. destruct e; cbn [requests_follow]; easy.
Qed.

Lemma requests_follow_app tr1 : forall prev tr2,
  requests_follow prev tr1 -> requests_follow None tr2 ->
  requests_follow prev (tr1 ++ tr2).
Proof.
  induction tr1 as [| e tr1 IH]; intros prev tr2 H1 H2.
  - now apply requests_follow_weaken.
  - destruct e; cbn [requests_follow app] in *;
      try (now apply IH); split; [apply H1 | apply IH; [apply H1 | exact H2]].
Qed.

Lemma requests_follow_yields l : requests_follow None (map Yield l).
Proof. induction l as [| x l IH]; [exact I | exact IH]. Qed.

(** In such a trace the event before a request is its lookup. *)
Lemma requests_follow_split earlier : forall prev later l o,
  requests_follow prev (earlier ++ Request l o :: later) ->
  (earlier = [] /\ prev = Some (l, o))
  \/ exists before, earlier = before ++ [ReadCache l o].
Proof.
  induction earlier as [| e earlier IH]; intros prev later l o H.
  - left. split; [reflexivity | apply H].
  - right.
    assert (Hrest : exists prev', requests_follow prev' (earlier ++ Request l o :: later)
                                  /\ (earlier = [] -> prev' = Some (l, o) ->
                                      e = ReadCache l o)).
    { destruct e as [l' o' | l' o' | x |]; cbn [requests_follow app] in H.
      - exists (Some (l', o')). split; [exact H |]. intros _ E. now injection E as -> ->.
      - exists None. split; [apply H | discriminate].
      - exists None. split; [exact H | discriminate].
      - exists None. split; [exact H | discriminate]. }
    destruct Hrest as (prev' & Hrest & Hlast).
    destruct (IH _ _ _ _ Hrest) as [[-> Hprev] | [before ->]].
    + exists []. now rewrite (Hlast eq_refl Hprev).
    + now exists (e :: before).
Qed.

Lemma run_requests_follow (fetch_orders : nat -> nat -> result json) budget :
  forall d offset,
    requests_follow None (trace_of (fetch_all_orders_from fetch_orders budget d offset)).
Proof.
  induction budget as [| budget IH]; intros d offset; [exact I |].
  cbn [fetch_all_orders_from].
  destruct (persisted_events fetch_orders d limit offset) as [again Hio].
  destruct (fetch_orders_persisted fetch_orders d limit offset) as [[io d1] fetched].
  cbn [fst] in Hio. subst io.
  assert (Hio : requests_follow None
                  (ReadCache limit offset :: (if again then [Request limit offset] else [])))
    by now destruct again.
  destruct fetched as [[data was_persisted] | e]; [| exact Hio].
  destruct (check_page data) as [[summaries |] | e]; [| exact Hio ..].
  specialize (IH d1 (offset + limit)).
  destruct (fetch_all_orders_from fetch_orders budget d1 (offset + limit))
    as [[rest d2] st].
  unfold trace_of in *. cbn [fst] in *.
  apply requests_follow_app; [exact Hio |].
  apply requests_follow_app; [apply requests_follow_yields |].
  apply requests_follow_app; [now destruct was_persisted | exact IH].
Qed.

(** X11.  Whatever the API and the directory hold, a run looks for its
    pages at consecutive multiples of the page size: its k-th fetch is for
    limit 20 at the start offset plus 20 k; it fetches at most as many
    pages as the budget, exactly as many when it is still running; and it
    sends a request only for the page it has just looked up: the event
    right before a request is the cache lookup for the same limit and
    offset. *)
Theorem fetches_are_consecutive
  (fetch_orders : nat -> nat -> result json) (budget : nat) (d : disk) (offset : nat) :
  let run := fetch_all_orders_from fetch_orders budget d offset in
  exists m,
    m <= budget
    /\ reads (trace_of run) = map (fun i => (limit, offset + i * limit)) (seq 0 m)
    /\ (status_of run = Suspended -> m = budget)
    /\ forall earlier later l o,
        trace_of run = earlier ++ Request l o :: later ->
        exists before, earlier = before ++ [ReadCache l o].
Proof.
  intros run. destruct (run_reads fetch_orders budget d offset) as (m & Hm & Hreads & Hst).
  exists m. split; [exact Hm |]. split; [exact Hreads |]. split; [exact Hst |].
  intros earlier later l o Htrace.
  pose proof (run_requests_follow fetch_orders budget d offset) as Hfollow.
  fold run in Hfollow. rewrite Htrace in Hfollow.
  destruct (requests_follow_split _ _ _ _ _ Hfollow) as [[_ Hnone] | Hbefore];
    [discriminate Hnone | exact Hbefore].
Qed.

(** ** Runs over a valid prefix of pages *)

Section Prefix.

Variable fetch_orders : nat -> nat -> result json.
Variable d : disk.
Variable pages : nat -> list json.

(** One fetch against the current directory: the page is served as against
    the initial directory, and afterwards it is stored. *)
Lemma fetch_page_stores k d' data was_persisted :
  agree_from k d' d ->
  served fetch_orders d k = Ok (data, was_persisted) ->
  was_persisted = cached d k
  /\ exists d1,
      fetch_orders_persisted fetch_orders d' limit (k * limit)
      = (fetch_events d k, d1, Ok (data, was_persisted))
      /\ d1 !! orders_filename limit (k * limit) = Some (Stored data)
      /\ (forall f, f <> orders_filename limit (k * limit) -> d1 !! f = d' !! f)
      /\ (cached d k = true -> d1 = d').
Proof.
  intros Hagree Hserved. pose proof (Hagree k (le_n k)) as Hk.
  unfold served, fetch_orders_persisted in Hserved.
  unfold fetch_orders_persisted, fetch_events, cached.
  rewrite Hk.
  destruct (d !! orders_filename limit (k * limit)) as [[stored | w | w] |] eqn:Hfile;
    [ injection Hserved as <- <-; split; [reflexivity |];
      exists d'; repeat split; now rewrite ?Hk
    | destruct (fetch_orders limit (k * limit)) as [fetched | e];
      [ cbn [can_write] in Hserved |- *; try destruct w; try discriminate Hserved;
        injection Hserved as <- <-; split; [reflexivity |];
        eexists; split; [reflexivity |]; split; [apply lookup_insert_eq |];
        split; [intros f Hf; now apply lookup_insert_ne | discriminate]
      | discriminate Hserved ] .. ].
Qed.

Lemma agree_from_unchanged k d1 d' :
  agree_from k d' d ->
  (forall f, f <> orders_filename limit (k * limit) -> d1 !! f = d' !! f) ->
  agree_from (S k) d1 d.
Proof.
  intros Hagree Hsame m Hm. rewrite Hsame; [apply Hagree; lia |].
  intros E. apply orders_filename_inj in E. unfold limit in E. lia.
Qed.

Lemma run_prefix n : forall k d' budget,
  agree_from k d' d ->
  (forall m, k <= m < k + n ->
             exists data was_persisted,
               served fetch_orders d m = Ok (data, was_persisted)
               /\ valid_page data (pages m) /\ pages m <> []) ->
  exists d'',
    agree_from (k + n) d'' d
    /\ (forall m, k <= m < k + n ->
                  exists data was_persisted,
                    served fetch_orders d m = Ok (data, was_persisted)
                    /\ d'' !! orders_filename limit (m * limit) = Some (Stored data))
    /\ (forall f, (forall m, k <= m < k + n -> f <> orders_filename limit (m * limit)) ->
                  d'' !! f = d' !! f)
    /\ ((forall m, k <= m < k + n -> cached d m = true) -> d'' = d')
    /\ fetch_all_orders_from fetch_orders (n + budget) d' (k * limit)
       = (let '(rest, d2, st) :=
            fetch_all_orders_from fetch_orders budget d'' ((k + n) * limit) in
          (flat_map (page_events d pages) (seq k n) ++ rest, d2, st)).
Proof.
  induction n as [| n IH]; intros k d' budget Hagree Hvalid.
  - exists d'. rewrite Nat.add_0_r. split; [exact Hagree |].
    split; [intros m Hm; lia |]. split; [reflexivity |]. split; [reflexivity |].
    cbn [Nat.add seq flat_map app].
    now destruct (fetch_all_orders_from fetch_orders budget d' (k * limit)) as [[rest d2] st].
  - destruct (Hvalid k ltac:(lia)) as (data & was_persisted & Hserved & Hpage & Hfull).
    destruct (fetch_page_stores k d' data was_persisted Hagree Hserved)
      as (Hcached & d1 & Hfetch & Hstored & Hsame & Hhit).
    pose proof (agree_from_unchanged k d1 d' Hagree Hsame) as Hagree1.
    destruct (IH (S k) d1 budget Hagree1) as (d'' & Hagree2 & Hfiles & Hrest & Hhits & Hrun).
    { intros m Hm. apply Hvalid. lia. }
    replace (S k + n) with (k + S n) in * by lia.
    exists d''. split; [exact Hagree2 |]. split; [| split; [| split]].
    + intros m Hm. destruct (Nat.eq_dec m k) as [-> | Hne].
      * exists data, was_persisted. split; [exact Hserved |].
        rewrite Hrest; [exact Hstored |].
        intros m Hm' E. apply orders_filename_inj in E. unfold limit in E. lia.
      * apply Hfiles. lia.
    + intros f Hf. rewrite Hrest; [apply Hsame, Hf; lia |].
      intros m Hm. apply Hf. lia.
    + intros Hall. rewrite Hhits; [apply Hhit, Hall; lia |].
      intros m Hm. apply Hall. lia.
    + cbn [Nat.add fetch_all_orders_from]. rewrite Hfetch, (check_valid_page _ _ Hpage).
      destruct (pages k) as [| summary summaries] eqn:Hk; [now destruct Hfull |].
      replace (k * limit + limit) with (S k * limit) by (cbn [Nat.mul]; lia).
      rewrite Hrun.
      destruct (fetch_all_orders_from fetch_orders budget d'' ((k + S n) * limit))
        as [[rest d2] st].
      cbn [seq flat_map]. unfold page_events at 2. rewrite Hk, <- Hcached.
      now rewrite <- !app_assoc.
Qed.

(** A run with budget for more than [n] pages, the pages before page [n]
    being valid and not empty, and page [n] making the loop stop. *)
Lemma run_to_page n budget data was_persisted :
  (forall m, m < n ->
             exists data was_persisted,
               served fetch_orders d m = Ok (data, was_persisted)
               /\ valid_page data (pages m) /\ pages m <> []) ->
  served fetch_orders d n = Ok (data, was_persisted) ->
  check_page data = Ok None \/ (exists e, check_page data = Raise e) ->
  exists d2,
    fetch_all_orders fetch_orders (n + S budget) d
    = (flat_map (page_events d pages) (seq 0 n) ++ fetch_events d n, d2,
       match check_page data with
       | Raise e => Raised e
       | Ok _ => Returned
       end)
    /\ (forall m, m <= n ->
                  exists data was_persisted,
                    served fetch_orders d m = Ok (data, was_persisted)
                    /\ d2 !! orders_filename limit (m * limit) = Some (Stored data))
    /\ ((forall m, m <= n -> cached d m = true) -> d2 = d).
Proof.
  intros Hvalid Hserved Hstop.
  destruct (run_prefix n 0 d (S budget)) as (d'' & Hagree & Hfiles & Hrest & Hhits & Hrun).
  { now intros m _. }
  { intros m Hm. apply Hvalid. lia. }
  cbn [Nat.add] in *.
  destruct (fetch_page_stores n d'' data was_persisted Hagree Hserved)
    as (Hcached & d2 & Hfetch & Hstored & Hsame & Hhit).
  exists d2. split; [| split].
  - unfold fetch_all_orders. change 0 with (0 * limit) at 1. rewrite Hrun.
    cbn [fetch_all_orders_from]. rewrite Hfetch.
    destruct Hstop as [Hnone | [e He]]; [rewrite Hnone | rewrite He]; reflexivity.
  - intros m Hm. destruct (Nat.eq_dec m n) as [-> | Hne].
    + now exists data, was_persisted.
    + destruct (Hfiles m ltac:(lia)) as (data' & wp' & Hs' & Hf').
      exists data', wp'. split; [exact Hs' |]. rewrite Hsame; [exact Hf' |].
      intros E. apply orders_filename_inj in E. unfold limit in E. lia.
  - intros Hall. rewrite (Hhit (Hall n (le_n n))). apply Hhits.
    intros m Hm. apply Hall. lia.
Qed.

End Prefix.

(** ** Requests, pauses and reruns *)

Lemma requests_app tr1 tr2 : requests (tr1 ++ tr2) = requests tr1 ++ requests tr2.
Proof. apply List.filter_app. Qed.

Lemma sleeps_app tr1 tr2 : sleeps (tr1 ++ tr2) = sleeps tr1 + sleeps tr2.
Proof.
  induction tr1 as [| e tr1 IH]; [reflexivity |].
  destruct e; cbn [sleeps app]; now rewrite ?IH.
Qed.

Lemma requests_yields l : requests (map Yield l) = [].
Proof. induction l as [| x l IH]; [reflexivity | exact IH]. Qed.

Lemma sleeps_yields l : sleeps (map Yield l) = 0.
Proof. induction l as [| x l IH]; [reflexivity | exact IH]. Qed.

Lemma requests_page d pages m :
  requests (page_events d pages m)
  = if cached d m then [] else [Request limit (m * limit)].
Proof.
  unfold page_events, fetch_events.
  change (ReadCache limit (m * limit)
          :: (if cached d m then [] else [Request limit (m * limit)]))
    with ([ReadCache limit (m * limit)]
          ++ (if cached d m then [] else [Request limit (m * limit)])).
  rewrite !requests_app, requests_yields. now destruct (cached d m).
Qed.

Lemma sleeps_page d pages m :
  sleeps (page_events d pages m) = if cached d m then 0 else 1.
Proof.
  unfold page_events, fetch_events.
  change (ReadCache limit (m * limit)
          :: (if cached d m then [] else [Request limit (m * limit)]))
    with ([ReadCache limit (m * limit)]
          ++ (if cached d m then [] else [Request limit (m * limit)])).
  rewrite !sleeps_app, sleeps_yields. now destruct (cached d m).
Qed.

Lemma requests_pages d pages ms :
  requests (flat_map (page_events d pages) ms)
  = map (fun m => Request limit (m * limit)) (uncached d ms).
Proof.
  unfold uncached. induction ms as [| m ms IH]; [reflexivity |].
  cbn [flat_map List.filter]. rewrite requests_app, IH, requests_page.
  now destruct (cached d m).
Qed.

Lemma sleeps_pages d pages ms :
  sleeps (flat_map (page_events d pages) ms) = length (uncached d ms).
Proof.
  unfold uncached. induction ms as [| m ms IH]; [reflexivity |].
  cbn [flat_map List.filter]. rewrite sleeps_app, IH, sleeps_page.
  now destruct (cached d m).
Qed.


(** A run that ends at page [n], for any budget above [n]. *)
Lemma run_ends_at fetch_orders d pages n budget :
  ends_at fetch_orders d pages n -> n < budget ->
  exists d2,
    fetch_all_orders fetch_orders budget d
    = (flat_map (page_events d pages) (seq 0 n) ++ fetch_events d n, d2, Returned)
    /\ (forall m, m <= n ->
                  exists data was_persisted,
                    served fetch_orders d m = Ok (data, was_persisted)
                    /\ d2 !! orders_filename limit (m * limit) = Some (Stored data))
    /\ ((forall m, m <= n -> cached d m = true) -> d2 = d).
Proof.
  intros [Hvalid (data & was_persisted & Hserved & Hpage)] Hbudget.
  pose proof (check_valid_page _ _ Hpage) as Hcheck.
  destruct (run_to_page fetch_orders d pages n (budget - S n) data was_persisted
              Hvalid Hserved (or_introl Hcheck)) as (d2 & Hrun & Hfiles & Hhits).
  replace (n + S (budget - S n)) with budget in Hrun by lia.
  rewrite Hcheck in Hrun. now exists d2.
Qed.

(** X12.  In a run that ends at page [n], the API is asked exactly for the
    pages up to [n] that are not in the cache, in increasing order and once
    each, and the run pauses once for each such page before page [n]: never
    after a page read from the cache, and not after the last page. *)
Theorem requests_and_pauses
  (fetch_orders : nat -> nat -> result json) (d : disk) (pages : nat -> list json)
  (n budget : nat) :
  ends_at fetch_orders d pages n -> n < budget ->
  let tr := trace_of (fetch_all_orders fetch_orders budget d) in
  requests tr = map (fun m => Request limit (m * limit)) (uncached d (seq 0 (S n)))
  /\ sleeps tr = length (uncached d (seq 0 n)).
Proof.
  intros Hends Hbudget tr.
  destruct (run_ends_at fetch_orders d pages n budget Hends Hbudget) as (d2 & Hrun & _).
  subst tr. rewrite Hrun. unfold trace_of. cbn [fst]. split.
  - rewrite requests_app, requests_pages, seq_S. unfold uncached.
    rewrite List.filter_app, map_app. f_equal.
    unfold fetch_events. cbn [Nat.add List.filter]. now destruct (cached d n).
  - rewrite sleeps_app, sleeps_pages. unfold fetch_events. cbn [sleeps].
    destruct (cached d n); cbn [sleeps]; lia.
Qed.


(** X14.  A page that fails validation aborts the whole run with its
    exception and nothing is exported: [execute] is left before either
    output file is opened, although the summaries of the pages before that
    page were fetched and processed without an exception. *)
Theorem bad_page_aborts_the_run
  (fetch_orders : nat -> nat -> result json) (d : disk) (pages : nat -> list json)
  (n budget : nat) (data : json) (was_persisted : bool) (e : exn)
  (ss : list OrderSummary) :
  (forall m, m < n ->
             exists data was_persisted,
               served fetch_orders d m = Ok (data, was_persisted)
               /\ valid_page data (pages m) /\ pages m <> []) ->
  served fetch_orders d n = Ok (data, was_persisted) ->
  check_page data = Raise e ->
  Forall2 is_summary (flat_map pages (seq 0 n)) ss ->
  n < budget ->
  execute fetch_orders budget d = Failed e None None
  /\ yielded (trace_of (fetch_all_orders fetch_orders budget d)) = flat_map pages (seq 0 n).
Proof.
  intros Hvalid Hserved Hcheck Hshaped Hbudget.
  destruct (run_to_page fetch_orders d pages n (budget - S n) data was_persisted
              Hvalid Hserved (or_intror (ex_intro _ e Hcheck))) as (d2 & Hrun & _).
  replace (n + S (budget - S n)) with budget in Hrun by lia.
  rewrite Hcheck in Hrun.
  assert (Hyield : yielded (trace_of (fetch_all_orders fetch_orders budget d))
                   = flat_map pages (seq 0 n)).
  { rewrite Hrun. unfold trace_of. cbn [fst].
    rewrite yielded_app, yielded_pages, yielded_fetch_events. apply app_nil_r. }
  split; [| exact Hyield].
  unfold execute. rewrite Hyield, (all_order_rows_shaped _ ss [] Hshaped).
  now rewrite Hrun.
Qed.

Lemma one_page_served api :
  api limit 0 = Ok (page_of [group_cart]) ->
  forall m, m < 1 ->
            exists data was_persisted,
              served api ∅ m = Ok (data, was_persisted)
              /\ valid_page data (one_page m) /\ one_page m <> [].
Proof.
  intros Hapi m Hm. assert (m = 0) as -> by lia.
  exists (page_of [group_cart]), false. split; [| split; [| discriminate]].
  - unfold served, fetch_orders_persisted. rewrite lookup_empty. cbn [Nat.mul].
    now rewrite Hapi.
  - now exists [("data", JObj [(ORDERS_FIELD, JArr [group_cart])])],
               [(ORDERS_FIELD, JArr [group_cart])].
Qed.

Lemma one_page_ends : ends_at one_page_api ∅ one_page 1.
Proof.
  split; [now apply one_page_served |].
  exists (page_of []), false. split.
  - unfold served, fetch_orders_persisted. now rewrite lookup_empty.
  - now exists [("data", JObj [(ORDERS_FIELD, JArr [])])], [(ORDERS_FIELD, JArr [])].
Qed.

Lemma one_page_shaped : Forall2 is_summary (flat_map one_page (seq 0 1)) [group_summary].
Proof. repeat first [apply group_cart_shaped | constructor]. Qed.

Lemma requests_and_pauses_witness :
  let tr := trace_of (fetch_all_orders one_page_api 2 ∅) in
  requests tr = map (fun m => Request limit (m * limit)) (uncached ∅ (seq 0 2))
  /\ sleeps tr = length (uncached ∅ (seq 0 1)).
Proof.
  assert (Hbudget : 1 < 2) by lia.
  exact (requests_and_pauses one_page_api ∅ one_page 1 2 one_page_ends Hbudget).
Defined.


Lemma bad_page_aborts_the_run_witness :
  execute drifting_api 2 ∅ = Failed (RuntimeError QUERY_CHANGED) None None.
Proof.
  assert (Hbudget : 1 < 2) by lia.
  assert (Hserved : served drifting_api ∅ 1 = Ok (error_page, false)).
  { unfold served, fetch_orders_persisted. now rewrite lookup_empty. }
  exact (proj1 (bad_page_aborts_the_run drifting_api ∅ one_page 1 2 error_page false
                  (RuntimeError QUERY_CHANGED) [group_summary]
                  (one_page_served drifting_api eq_refl) Hserved eq_refl
                  one_page_shaped Hbudget)).
Defined.

Lemma execute_finishes_witness :
  exists itemized pivot, execute one_page_api 2 ∅ = Finished itemized pivot.
Proof.
  assert (Hbudget : 1 < 2) by lia.
  assert (Hfirst : forall m, m < 1 -> one_page m <> []).
  { intros m Hm. assert (m = 0) as -> by lia. discriminate. }
  pose proof (execute_finishes one_page_api ∅ one_page 1 [group_summary] 2
                one_page_api_valid eq_refl Hfirst one_page_shaped Hbudget) as H.
  cbv zeta in H. eexists. eexists. exact H.
Defined.

(** ** Rows of any summary *)

(** Opens the binds of a computation known to succeed. *)
Ltac bind_ok H :=
  repeat (cbv zeta in H;
          match type of H with
          | bind ?c _ = Ok _ =>
              let x := fresh "x" in
              let E := fresh "E" in
              destruct c as [x |] eqn:E; cbn [bind] in H; [| discriminate H]
          end).

Lemma for_each_appends {A : Type} (P : row -> Prop)
  (body : list row -> A -> result (list row)) xs :
  (forall rows x rows',
      body rows x = Ok rows' -> exists new, rows' = rows ++ new /\ Forall P new) ->
  forall rows rows',
    for_each body xs rows = Ok rows' -> exists new, rows' = rows ++ new /\ Forall P new.
Proof.
  intros Hbody. induction xs as [| x xs IH]; intros rows rows' H.
  - injection H as <-. exists []. now rewrite app_nil_r.
  - cbn [for_each] in H. bind_ok H.
    destruct (Hbody _ _ _ E) as (new1 & -> & Hnew1).
    destruct (IH _ _ H) as (new2 & -> & Hnew2).
    exists (new1 ++ new2). rewrite app_assoc. split; [reflexivity |].
    apply Forall_app. now split.
Qed.

Lemma item_row_appends oid dt st p rows it rows' :
  item_row oid dt st p rows it = Ok rows' ->
  exists new, rows' = rows ++ new /\ Forall (of_order oid dt st) new.
Proof.
  unfold item_row. intros H. bind_ok H. injection H as <-.
  eexists. split; [reflexivity |]. repeat constructor.
Qed.

Lemma sub_order_rows_appends oid dt st rows sub rows' :
  sub_order_rows oid dt st rows sub = Ok rows' ->
  exists new, rows' = rows ++ new /\ Forall (of_order oid dt st) new.
Proof.
  unfold sub_order_rows. intros H. bind_ok H.
  apply (for_each_appends _ _ _ (fun rows it rows' => item_row_appends oid dt st _ rows it rows')
           _ _ H).
Qed.

(** X16.  Processing a summary, whatever its shape, only appends rows: the
    rows collected before stay as they are, and the rows of one summary all
    carry the same order id, which is the resolved one, the same store and
    the same date; the date is never null or empty, a missing timestamp
    being replaced and not raising. *)
Theorem order_rows_appends (rows : list row) (order_cart : json) (rows' : list row) :
  order_rows rows order_cart = Ok rows' ->
  exists new oid dt st,
    rows' = rows ++ new
    /\ resolve_order_id order_cart = Ok oid
    /\ Py.truthy dt = true
    /\ Forall (fun r => order_id r = oid /\ date r = dt /\ store r = st) new.
Proof.
  unfold order_rows. intros H. bind_ok H.
  match type of H with
  | for_each (sub_order_rows ?oid ?dt ?st) _ _ = _ =>
      destruct (for_each_appends _ _ _
                  (fun rows sub rows' => sub_order_rows_appends oid dt st rows sub rows')
                  _ _ H) as (new & -> & Hnew);
      exists new, oid, dt, st
  end.
  split; [reflexivity |]. split; [reflexivity |]. split; [| exact Hnew].
  now destruct (Py.truthy x2) eqn:Ht.
Qed.

Lemma order_rows_appends_witness :
  exists new oid dt st,
    flat_rows group_summary = [] ++ new
    /\ resolve_order_id group_cart = Ok oid
    /\ Py.truthy dt = true
    /\ Forall (fun r => order_id r = oid /\ date r = dt /\ store r = st) new.
Proof. apply (order_rows_appends [] group_cart (flat_rows group_summary)). reflexivity. Defined.

(** ** The two tables *)

(** X17.  When the date of every row is a string, the itemised table is
    written: a header and one line per row, in the order of the rows, each
    line holding the first ten characters of the date, the store, the
    person, the item and the options of its row. *)
Theorem itemized_table_lines (rows : list row) :
  Forall (fun r => exists s, date r = JStr s) rows ->
  exists body,
    itemized_table rows
    = Ok (map JStr ["Date"; "Store"; "Person"; "Item"; "Options"] :: body)
    /\ length body = length rows
    /\ forall i r s,
        nth_error rows i = Some r -> date r = JStr s ->
        nth_error body i
        = Some [JStr (String.substring 0 10 s); store r; JStr (person r); item r;
                JStr (options r)].
Proof.
  intros Hdates. exists (map itemized_line rows).
  assert (Hbody : forall body,
             for_each
               (fun body r =>
                  do day <- Py.slice10 (date r);
                  Ok (body ++ [[day; store r; JStr (person r); item r; JStr (options r)]]))
               rows body
             = Ok (body ++ map itemized_line rows)).
  { induction Hdates as [| r rows [s Hs] _ IH]; intros body.
    - cbn. now rewrite app_nil_r.
    - cbn [for_each map]. rewrite Hs. cbn [Py.slice10 bind]. rewrite IH.
      unfold itemized_line at 2. rewrite Hs. now rewrite <- app_assoc. }
  unfold itemized_table. rewrite Hbody. cbn [bind app].
  split; [reflexivity |]. split; [apply length_map |].
  intros i r s Hi Hs. rewrite nth_error_map, Hi. cbn [option_map].
  unfold itemized_line. now rewrite Hs.
Qed.

Lemma itemized_table_lines_witness :
  exists body,
    itemized_table group_rows
    = Ok (map JStr ["Date"; "Store"; "Person"; "Item"; "Options"] :: body)
    /\ length body = 2.
Proof.
  assert (Hdates : Forall (fun r => exists s, date r = JStr s) group_rows).
  { repeat constructor; eexists; reflexivity. }
  destruct (itemized_table_lines group_rows Hdates) as (body & Htable & Hlength & _).
  exists body. split; [exact Htable | exact Hlength].
Defined.

(** X18.  A row whose date is neither a string nor a list, a number or
    null for instance, makes the itemised table fail with [TypeError],
    wherever the row stands, when no date is a dict. *)
Theorem itemized_table_needs_string_dates (rows : list row) (r : row) :
  In r rows -> sliceable (date r) = false ->
  existsb dict_date rows = false ->
  itemized_table rows = Raise TypeError.
Proof.
  intros Hin Hbad _. unfold itemized_table.
  assert (Hbody : forall body,
             for_each
               (fun body r =>
                  do day <- Py.slice10 (date r);
                  Ok (body ++ [[day; store r; JStr (person r); item r; JStr (options r)]]))
               rows body
             = Raise TypeError).
  { induction rows as [| r0 rows IH]; intros body; [destruct Hin |].
    cbn [for_each]. destruct (Py.slice10 (date r0)) as [day |] eqn:Hslice; cbn [bind].
    - apply IH. destruct Hin as [-> | Hin]; [| exact Hin].
      destruct (date r); discriminate Hbad || discriminate Hslice.
    - f_equal. destruct (date r0); (discriminate Hslice || now injection Hslice). }
  now rewrite Hbody.
Qed.

Lemma itemized_table_needs_string_dates_witness :
  itemized_table
    [Row (JStr "u-1") (JInt 1683000000) (JStr "Taqueria") "Amy" (JStr "Taco") ""]
  = Raise TypeError.
Proof.
  apply (itemized_table_needs_string_dates _
           (Row (JStr "u-1") (JInt 1683000000) (JStr "Taqueria") "Amy" (JStr "Taco") ""));
    [now left | reflexivity | reflexivity].
Defined.

(** X19.  The pivot of rows that can be exported is a rectangle: a header
    and one line per distinct order id, every line as wide as the header,
    that is two cells and one per person. *)
Theorem pivot_table_is_rectangular (rows : list row) :
  forallb row_ok rows = true ->
  exists t,
    pivot_table rows = Ok t
    /\ length t = S (length (orders_seen rows))
    /\ Forall (fun line => length line = 2 + length (first_seen rows)) t.
Proof.
  intros Hok. rewrite (pivot_table_ok rows Hok). eexists. split; [reflexivity |].
  pose proof (Permutation_length (people_perm rows)) as Hwidth.
  split.
  - cbn [length]. now rewrite !length_map, <- (length_map fst), keys_by_order_id.
  - constructor.
    + cbn [app map length]. now rewrite length_map, Hwidth.
    + apply List.Forall_forall. intros line Hline.
      apply in_map_iff in Hline. destruct Hline as (g & <- & _).
      unfold pivot_line. cbn [app length]. now rewrite length_map, Hwidth.
Qed.

Lemma pivot_table_is_rectangular_witness :
  exists t, pivot_table group_rows = Ok t /\ length t = 2.
Proof.
  destruct (pivot_table_is_rectangular group_rows eq_refl) as (t & Htable & Hlength & _).
  exists t. split; [exact Htable | exact Hlength].
Defined.

Lemma group_fields k rows :
  match group_of k (fold_left group_step rows []) with
  | Some g => (assoc "date" g, assoc "store" g)
  | None => (None, None)
  end
  = match last_row_in k rows with
    | Some r =>
        (Some (if String.eqb "date" (person r) then cell r else date r),
         Some (if String.eqb "store" (person r) then cell r else store r))
    | None => (None, None)
    end.
Proof.
  unfold last_row_in.
  induction rows as [| r rows IH] using rev_ind; [reflexivity |].
  rewrite fold_left_app, rev_app_distr. cbn [fold_left rev app List.find].
  unfold group_step at 1. rewrite group_of_update.
  destruct (Py.key_eqb (order_id r) k) eqn:Hk; [| exact IH].
  rewrite !assoc_setitem.
  generalize (String.eqb "date" (person r)), (String.eqb "store" (person r)).
  intros is_date is_store. cbn. now destruct is_date, is_store.
Qed.

(** X20.  Last write wins in a group: the line of an order in the pivot
    starts with the first ten characters of the date and with the store of
    the last row of that order, as long as the person of that row is not
    called [date], respectively [store]. *)
Theorem pivot_line_keeps_last_date_and_store (rows : list row) :
  forallb row_ok rows = true ->
  exists groups,
    by_order_id rows = Ok groups
    /\ forall k g,
        In (k, g) groups ->
        exists r s,
          last_row_in k rows = Some r /\ date r = JStr s
          /\ (person r <> "date" ->
              nth_error (pivot_line (people rows) g) 0
              = Some (JStr (String.substring 0 10 s)))
          /\ (person r <> "store" ->
              nth_error (pivot_line (people rows) g) 1 = Some (store r)).
Proof.
  intros Hok. exists (fold_left group_step rows []).
  split; [now apply by_order_id_fold |].
  intros k g Hin. pose proof (group_fields k rows) as Hfields.
  rewrite (group_of_fold rows k g Hok Hin) in Hfields.
  pose proof (groups_ok rows Hok) as Hall. rewrite List.Forall_forall in Hall.
  destruct (Hall _ Hin) as [[s0 Hdate] [v Hstore]]. cbn [snd] in Hdate, Hstore.
  destruct (last_row_in k rows) as [r |] eqn:Hlast;
    [| rewrite Hdate in Hfields; discriminate Hfields].
  assert (Hr : row_ok r = true).
  { rewrite forallb_forall in Hok. apply Hok. unfold last_row_in in Hlast.
    apply find_some in Hlast. now apply in_rev. }
  destruct (row_ok_date r Hr) as [s Hs].
  exists r, s. split; [reflexivity |]. split; [exact Hs |].
  apply pair_equal_spec in Hfields. destruct Hfields as [Hd Hst].
  unfold pivot_line. cbn [app nth_error]. split.
  - intros Hperson. apply not_eq_sym, String.eqb_neq in Hperson.
    rewrite Hperson, Hs in Hd. now rewrite Hd.
  - intros Hperson. apply not_eq_sym, String.eqb_neq in Hperson.
    rewrite Hperson in Hst. now rewrite Hst.
Qed.

Lemma pivot_line_keeps_last_date_and_store_witness :
  exists groups, by_order_id group_rows = Ok groups.
Proof.
  destruct (pivot_line_keeps_last_date_and_store group_rows eq_refl) as (groups & H & _).
  now exists groups.
Defined.

Lemma list_sum_increment p counter :
  list_sum (map snd (increment p counter)) = S (list_sum (map snd counter)).
Proof.
  induction counter as [| [q n] counter IH]; [reflexivity |].
  cbn [increment]. destruct (String.eqb p q); [simpl; lia |].
  change (list_sum (map snd ((q, n) :: increment p counter)))
    with (n + list_sum (map snd (increment p counter))).
  rewrite IH. simpl. lia.
Qed.

Lemma list_sum_person_counter rows : forall counter,
  list_sum (map snd (fold_left (fun c r => increment (person r) c) rows counter))
  = list_sum (map snd counter) + length rows.
Proof.
  induction rows as [| r rows IH]; intros counter; cbn [fold_left length]; [lia |].
  rewrite IH, list_sum_increment. lia.
Qed.

Lemma list_sum_perm l l' : Permutation l l' -> list_sum l = list_sum l'.
Proof. induction 1; simpl; lia. Qed.

(** X21.  The person columns account for every row exactly once: the
    persons of the columns are those of the rows, each with at least one
    row, and their counts add up to the number of rows. *)
Theorem columns_count_every_row (rows : list row) :
  list_sum (map (item_count rows) (people rows)) = length rows
  /\ (forall p, In p (people rows) <-> In p (persons rows))
  /\ (forall p, In p (people rows) -> 1 <= item_count rows p).
Proof.
  assert (Hmem : forall p, In p (people rows) <-> In p (persons rows)).
  { intros p. split.
    - intros Hp. apply (Permutation_in _ (people_perm rows)) in Hp.
      now apply In_dedup in Hp.
    - intros Hp. apply (Permutation_in _ (Permutation_sym (people_perm rows))).
      unfold first_seen. induction (persons rows) as [| q l IH]; [destruct Hp |].
      cbn [dedup]. destruct (String.eqb q p) eqn:Hq.
      + left. now apply String.eqb_eq.
      + right. apply filter_In. rewrite Hq. split; [| reflexivity].
        destruct Hp as [-> | Hp]; [now rewrite String.eqb_refl in Hq | now apply IH]. }
  split; [| split; [exact Hmem |]].
  - unfold people.
    assert (Hsnd : map (item_count rows) (map fst (most_common (person_counter rows)))
                   = map snd (most_common (person_counter rows))).
    { rewrite map_map. apply map_ext_in. intros e He.
      pose proof (counted_entries rows) as Hall. rewrite List.Forall_forall in Hall.
      symmetry. now apply Hall. }
    rewrite Hsnd, (list_sum_perm _ _ (Permutation_map snd (most_common_perm _))).
    unfold person_counter. now rewrite list_sum_person_counter.
  - intros p Hp. apply Hmem in Hp. clear Hmem. unfold item_count.
    induction (persons rows) as [| q l IH]; [destruct Hp |].
    cbn [List.filter]. destruct (String.eqb p q) eqn:Hq; [cbn [length]; lia |].
    destruct Hp as [-> | Hp]; [now rewrite String.eqb_refl in Hq | now apply IH].
Qed.

(** X22.  The date of the rows of a well-shaped summary is the submission
    timestamp when there is one, else the creation timestamp when there is
    one, else the placeholder [1900-01-01T00:00:00Z]; an absent, null or
    empty timestamp counts as none. *)
Theorem date_prefers_submission (j : json) (s : OrderSummary) :
  is_summary j s ->
  let missing (v : option string) := v = None \/ v = Some "" in
  exists rows,
    order_rows [] j = Ok rows
    /\ forall r, In r rows ->
        (forall t, submittedAt s = Some t -> t <> "" -> date r = JStr t)
        /\ (forall t, missing (submittedAt s) -> createdAt s = Some t -> t <> "" ->
                      date r = JStr t)
        /\ (missing (submittedAt s) -> missing (createdAt s) ->
            date r = JStr SENTINEL_DATE).
Proof.
  intros Hshaped missing. exists (flat_rows s).
  split; [apply (order_rows_shaped j s [] Hshaped) |].
  intros r Hr. unfold flat_rows in Hr. apply in_flat_map in Hr.
  destruct Hr as (so & _ & Hr). apply in_map_iff in Hr. destruct Hr as (it & <- & _).
  unfold flat_row, summary_date, or_default. cbn [date]. subst missing. cbn beta.
  split; [| split].
  - intros t -> Ht. apply String.eqb_neq in Ht. now rewrite Ht.
  - intros t [-> | ->] -> Ht; apply String.eqb_neq in Ht; cbn [String.eqb]; now rewrite Ht.
  - now intros [-> | ->] [-> | ->].
Qed.

Lemma date_prefers_submission_witness :
  exists rows,
    order_rows [] group_cart = Ok rows
    /\ forall r, In r rows -> date r = JStr "2023-05-01T12:00:00Z".
Proof.
  destruct (date_prefers_submission group_cart group_summary group_cart_shaped)
    as (rows & Hrows & Hdates).
  exists rows. split; [exact Hrows |].
  intros r Hr. destruct (Hdates r Hr) as (_ & Hcreated & _).
  apply Hcreated; [now left | reflexivity | discriminate].
Defined.

Lemma fetch_orders_request_witness :
  exists req cookie,
    Http.session_cookie {| sessionid := JStr "abc123"; verbose := false |} = Ok cookie
    /\ Http.fetch_orders canned_post canned_loads
         {| sessionid := JStr "abc123"; verbose := false |} 20 40
       = ([req], do text <- canned_post req; canned_loads text)
    /\ url req = GRAPHQL_URL.
Proof.
  destruct (proj1 (fetch_orders_request canned_post canned_loads "abc123" false 20 40))
    as (req & cookie & Hcookie & Hfetch & Hurl & _).
  exists req, cookie. split; [exact Hcookie |]. split; [exact Hfetch | exact Hurl].
Defined.

Lemma fetches_are_consecutive_witness :
  exists m,
    m <= 2
    /\ reads (trace_of (fetch_all_orders_from one_page_api 2 ∅ 0))
       = map (fun i => (limit, 0 + i * limit)) (seq 0 m)
    /\ exists before, [ReadCache 20 0] = before ++ [ReadCache 20 0].
Proof.
  destruct (fetches_are_consecutive one_page_api 2 ∅ 0) as (m & Hm & Hreads & Hfull & Hreq).
  exists m. split; [exact Hm |]. split; [exact Hreads |].
  apply (Hreq [ReadCache 20 0]
              [Yield group_cart; Sleep; ReadCache 20 20; Request 20 20] 20 0).
  reflexivity.
Defined.

Lemma columns_count_every_row_witness :
  list_sum (map (item_count group_rows) (people group_rows)) = length group_rows
  /\ 1 <= item_count group_rows "Amy".
Proof.
  destruct (columns_count_every_row group_rows) as (Hsum & Hmem & Hone).
  split; [exact Hsum |]. apply Hone, Hmem. now left.
Defined.

(** ** Failures while the tables are written *)

Lemma for_each_until_spec {A S : Type} (body : S -> A -> result S) xs : forall s,
  for_each body xs s
  = match for_each_until body xs s with
    | (s', None) => Ok s'
    | (_, Some e) => Raise e
    end.
Proof.
  induction xs as [| x xs IH]; intros s; [reflexivity |].
  cbn [for_each for_each_until]. destruct (body s x) as [s' | e]; [apply IH | reflexivity].
Qed.

(** A table that was written to its end is what the file holds. *)
Lemma itemized_written_complete rows t :
  itemized_table rows = Ok t -> itemized_written rows = t.
Proof.
  unfold itemized_table, itemized_written. rewrite for_each_until_spec.
  destruct (for_each_until _ rows []) as [body [e |]]; cbn [bind fst]; [discriminate |].
  now intros [= <-].
Qed.

Lemma pivot_written_complete rows t :
  pivot_table rows = Ok t -> pivot_written rows = Some t.
Proof.
  unfold pivot_table, pivot_written.
  destruct (by_order_id rows) as [groups | e]; cbn [bind]; [| discriminate].
  rewrite for_each_until_spec.
  destruct (for_each_until _ (map snd groups) []) as [body [e |]]; cbn [bind fst];
    [discriminate |].
  now intros [= <-].
Qed.

Lemma itemized_until_strings rows : forall body,
  Forall (fun r => exists s, date r = JStr s) rows ->
  for_each_until
    (fun body r =>
       do day <- Py.slice10 (date r);
       Ok (body ++ [[day; store r; JStr (person r); item r; JStr (options r)]]))
    rows body
  = (body ++ map itemized_line rows, None).
Proof.
  induction rows as [| r rows IH]; intros body Hdates.
  - cbn. now rewrite app_nil_r.
  - inversion Hdates as [| r' rows' [s Hs] Hrest]; subst.
    cbn [for_each_until map]. rewrite Hs. cbn [Py.slice10 bind].
    rewrite (IH _ Hrest). unfold itemized_line at 2. rewrite Hs.
    now rewrite <- app_assoc.
Qed.

Lemma itemized_until_bad_date earlier r later : forall body,
  Forall (fun r => exists s, date r = JStr s) earlier ->
  sliceable (date r) = false ->
  for_each_until
    (fun body r =>
       do day <- Py.slice10 (date r);
       Ok (body ++ [[day; store r; JStr (person r); item r; JStr (options r)]]))
    (earlier ++ r :: later) body
  = (body ++ map itemized_line earlier, Some TypeError).
Proof.
  induction earlier as [| r0 earlier IH]; intros body Hdates Hbad.
  - cbn [app for_each_until map]. rewrite app_nil_r.
    now destruct (date r); try discriminate Hbad.
  - inversion Hdates as [| r' rows' [s Hs] Hrest]; subst.
    cbn [app for_each_until map]. rewrite Hs. cbn [Py.slice10 bind].
    rewrite (IH _ Hrest Hbad). unfold itemized_line at 2. rewrite Hs.
    now rewrite <- app_assoc.
Qed.

Lemma by_order_id_unhashable rows r :
  In r rows -> Py.hashable (order_id r) = false -> by_order_id rows = Raise TypeError.
Proof.
  intros Hin Hbad. unfold by_order_id.
  generalize (@nil (json * list (string * json))) as groups.
  induction rows as [| r0 rows IH]; intros groups; [destruct Hin |].
  cbn [for_each]. destruct (Py.hashable (order_id r0)) eqn:Hr0; cbn [bind]; [| reflexivity].
  apply IH. destruct Hin as [-> | Hin]; [congruence | exact Hin].
Qed.

(** X23.  A date that cannot be sliced is met only while [doordash.csv] is
    written.  When the summaries were all fetched and processed and the
    first row whose date is not a string has a date that is null, a boolean
    or a number, [execute] raises [TypeError] and leaves [doordash.csv] with
    the header and the lines of the rows before that row; the pivot file is
    not opened. *)
Theorem bad_date_leaves_partial_table
  (fetch_orders : nat -> nat -> result json) (budget : nat) (d : disk)
  (earlier later : list row) (r : row) :
  let run := fetch_all_orders fetch_orders budget d in
  status_of run = Returned ->
  for_each order_rows (yielded (trace_of run)) [] = Ok (earlier ++ r :: later) ->
  Forall (fun r => exists s, date r = JStr s) earlier ->
  sliceable (date r) = false -> dict_date r = false ->
  execute fetch_orders budget d
  = Failed TypeError
      (Some (map JStr ["Date"; "Store"; "Person"; "Item"; "Options"]
             :: map itemized_line earlier))
      None.
Proof.
  intros run Hreturned Hrows Hdates Hbad _.
  unfold execute. fold run. rewrite Hrows, Hreturned.
  unfold itemized_table, itemized_written. rewrite for_each_until_spec.
  now rewrite (itemized_until_bad_date earlier r later [] Hdates Hbad).
Qed.

(** X24.  An order id that cannot be a dict key is met only after
    [doordash.csv] was written.  When the summaries were all fetched and
    processed, every date is a string and the order id of some row is a
    list or a dict, [execute] raises [TypeError] at the grouping of the
    pivot: [doordash.csv] holds its header and one line per row, and the
    pivot file is not opened. *)
Theorem unhashable_order_id_leaves_itemized_table
  (fetch_orders : nat -> nat -> result json) (budget : nat) (d : disk)
  (rows : list row) (r : row) :
  let run := fetch_all_orders fetch_orders budget d in
  status_of run = Returned ->
  for_each order_rows (yielded (trace_of run)) [] = Ok rows ->
  Forall (fun r => exists s, date r = JStr s) rows ->
  In r rows -> Py.hashable (order_id r) = false ->
  execute fetch_orders budget d
  = Failed TypeError
      (Some (map JStr ["Date"; "Store"; "Person"; "Item"; "Options"]
             :: map itemized_line rows))
      None.
Proof.
  intros run Hreturned Hrows Hdates Hin Hbad.
  unfold execute. fold run. rewrite Hrows, Hreturned.
  unfold itemized_table, pivot_table, pivot_written.
  rewrite for_each_until_spec, (itemized_until_strings rows [] Hdates).
  cbn [bind app]. now rewrite (by_order_id_unhashable rows r Hin Hbad).
Qed.

Lemma bad_date_leaves_partial_table_witness :
  execute (api_of [group_cart; stamped_cart]) 2 ∅
  = Failed TypeError
      (Some [ map JStr ["Date"; "Store"; "Person"; "Item"; "Options"];
              map JStr ["2023-05-01"; "Taqueria"; "Amy"; "Taco"; ""];
              map JStr ["2023-05-01"; "Taqueria"; "Bo"; "Burrito"; "Protein: Steak"] ])
      None.
Proof.
  apply (bad_date_leaves_partial_table (api_of [group_cart; stamped_cart]) 2 ∅
           [ Row (JStr "u-1") (JStr "2023-05-01T12:00:00Z") (JStr "Taqueria") "Amy"
                 (JStr "Taco") "";
             Row (JStr "u-1") (JStr "2023-05-01T12:00:00Z") (JStr "Taqueria") "Bo"
                 (JStr "Burrito") "Protein: Steak" ]
           []
           (Row (JStr "u-2") (JInt 1683000000) (JStr "Taqueria") "Amy" (JStr "Taco") "")).
  - vm_compute. reflexivity.
  - vm_compute. reflexivity.
  - repeat constructor; eexists; reflexivity.
  - reflexivity.
  - reflexivity.
Defined.

Lemma unhashable_order_id_leaves_itemized_table_witness :
  execute (api_of [listed_cart]) 2 ∅
  = Failed TypeError
      (Some [ map JStr ["Date"; "Store"; "Person"; "Item"; "Options"];
              map JStr ["2023-05-01"; "Taqueria"; "Amy"; "Taco"; ""] ])
      None.
Proof.
  apply (unhashable_order_id_leaves_itemized_table (api_of [listed_cart]) 2 ∅
           [ Row (JArr [JStr "u-3"]) (JStr "2023-05-01T12:00:00Z") (JStr "Taqueria") "Amy"
                 (JStr "Taco") "" ]
           (Row (JArr [JStr "u-3"]) (JStr "2023-05-01T12:00:00Z") (JStr "Taqueria") "Amy"
                (JStr "Taco") "")).
  - vm_compute. reflexivity.
  - vm_compute. reflexivity.
  - repeat constructor; eexists; reflexivity.
  - now left.
  - reflexivity.
Defined.
